(** * Whale analytics engine: a shallow embedding of [core/whale_detector.py]

    The development follows the Python module function by function.

    Conventions of the embedding.
    - Python [float] values are taken as exact rationals ([Q]): every
      comparison of the source becomes the same comparison on [Q], and
      rounding of float arithmetic is not modelled.
    - Decimal integer strings of the explorer ([tx["value"]],
      [tx["timeStamp"]]) are taken already parsed, as [Z].
    - The explorer service, the clock and [asyncio.sleep] act on an abstract
      world [W]; every call may change it and may raise.
    - Exceptions are the classes the module's [except] clauses distinguish. *)

From Stdlib Require Import ZArith QArith Qminmax List String Ascii Bool Lia Lqa.
From Stdlib Require Import Permutation Sorted.
Import ListNotations.

Local Open Scope Q_scope.

(** ** Enumerations and records *)

Inductive WhaleClass : Type :=
| SHRIMP
| SMALL_WHALE
| MEDIUM_WHALE
| LARGE_WHALE
| MEGA_WHALE.

(** [WhaleClass.value] *)
Definition WhaleClass_value (c : WhaleClass) : string :=
  match c with
  | SHRIMP => "shrimp"
  | SMALL_WHALE => "small_whale"
  | MEDIUM_WHALE => "medium_whale"
  | LARGE_WHALE => "large_whale"
  | MEGA_WHALE => "mega_whale"
  end%string.

(** ** Pure threshold functions *)

(** [WhaleDetector.classify_whale] *)
Definition classify_whale (balance : Q) : WhaleClass :=
  if Qle_bool 10000 balance then MEGA_WHALE
  else if Qle_bool 1000 balance then LARGE_WHALE
  else if Qle_bool 100 balance then MEDIUM_WHALE
  else if Qle_bool 10 balance then SMALL_WHALE
  else SHRIMP.

(** [WhaleDetector.get_movement_significance] *)
Definition get_movement_significance (value : Q) : string :=
  (if Qle_bool 10000 value then "[!!!] MEGA MOVEMENT"
   else if Qle_bool 5000 value then "[!!] CRITICAL"
   else if Qle_bool 1000 value then "[!] MAJOR"
   else if Qle_bool 500 value then "[*] SIGNIFICANT"
   else "[-] NOTABLE")%string.

(** ** Strings, dictionaries and numbers as the module uses them *)

(** [str.lower] on one character (ASCII letters). *)
Definition lower_ascii (c : ascii) : ascii :=
  let n := nat_of_ascii c in
  if (65 <=? n)%nat && (n <=? 90)%nat then ascii_of_nat (n + 32) else c.

(** [str.lower] *)
Fixpoint lower (s : string) : string :=
  match s with
  | EmptyString => EmptyString
  | String c r => String (lower_ascii c) (lower r)
  end.

(** A Python [Dict[str, str]] in insertion order. *)
Definition dict : Type := list (string * string).

(** [list(d.keys())] *)
Definition keys (d : dict) : list string := map fst d.

(** [list(d.values())] *)
Definition values (d : dict) : list string := map snd d.

(** [d.get(k)] *)
Fixpoint dict_get (d : dict) (k : string) : option string :=
  match d with
  | [] => None
  | (k', v) :: r => if String.eqb k' k then Some v else dict_get r k
  end.

(** [k in d] *)
Definition dict_mem (d : dict) (k : string) : bool :=
  match dict_get d k with Some _ => true | None => false end.

(** [d[k] = v] for a key that is not yet in [d]. *)
Definition dict_add (d : dict) (k v : string) : dict := d ++ [(k, v)].

(** [a > b] on floats. *)
Definition Qgt_bool (a b : Q) : bool := negb (Qle_bool a b).

(** [wei / 10**18] *)
Definition eth_of_wei (wei : Z) : Q := inject_Z wei / inject_Z (10 ^ 18).

(** [(now - datetime.fromtimestamp(ts)).days]: [now] is the clock in
    microseconds, [ts] a Unix time in seconds; [timedelta.days] is the floor
    of the difference in days. *)
Definition timedelta_days (now ts : Z) : Z :=
  ((now - ts * 1000000) / 86400000000)%Z.

(** [sum(values)] *)
Definition Qsum (l : list Q) : Q := fold_left Qplus l 0.

(** [sum(risk_factors)] *)
Definition Zsum (l : list Z) : Z := fold_left Z.add l 0%Z.

(** [max(values)] of a non-empty list, 0 for the empty one (the source
    guards the call). *)
Definition Qmax_list (l : list Q) : Q :=
  match l with
  | [] => 0
  | x :: r => fold_left Qmax r x
  end.

(** [l.sort(key=key, reverse=True)]: Python's sort is stable, also with
    [reverse=True], so on totally ordered keys its result is the one list
    that is a descending, order-preserving rearrangement of [l]. Computed
    here by stable insertion. *)
Fixpoint insert_desc {A : Type} (key : A -> Q) (x : A) (l : list A) : list A :=
  match l with
  | [] => [x]
  | y :: r =>
      if Qgt_bool (key y) (key x) then y :: insert_desc key x r
      else x :: y :: r
  end.

Definition sort_desc {A : Type} (key : A -> Q) (l : list A) : list A :=
  fold_right (insert_desc key) [] l.

(** ** Explorer data *)

(** A transaction as returned by [get_transactions]; only consumed fields. *)
Record Transaction : Type := {
  tx_hash : string;
  tx_from : string;
  tx_to : string;
  tx_value : Z;          (* int(tx["value"]), in wei *)
  tx_timeStamp : Z;      (* int(tx["timeStamp"]) *)
  tx_blockNumber : string
}.

(** A token transfer; [contractAddress] may be missing from the dict. *)
Record TokenTransfer : Type := {
  contractAddress : option string
}.

(** [int(tx["value"]) / 10**18] *)
Definition tx_value_eth (tx : Transaction) : Q := eth_of_wei (tx_value tx).

Record WhaleMetrics : Type := {
  address : string;
  eth_balance : Q;
  whale_class : WhaleClass;
  total_transactions : nat;
  large_transactions : nat;
  avg_transaction_value : Q;
  max_transaction_value : Q;
  first_seen : option Z;
  last_activity : option Z;
  activity_score : Q;
  risk_score : Q;
  token_diversity : nat;
  chain : string
}.

(** The dict built by [discover_whale_movements]. *)
Record Movement : Type := {
  mv_hash : string;
  mv_from_address : string;
  mv_to_address : string;
  mv_value_eth : Q;
  mv_timestamp : Z;
  mv_block_number : string;
  mv_from_whale_class : string;
  mv_to_whale_class : string;
  mv_from_label : option string;
  mv_to_label : option string;
  mv_from_exchange : option string;
  mv_to_exchange : option string;
  mv_chain : string
}.

(** The dict built by [discover_top_whales]. *)
Record WhaleInfo : Type := {
  wi_address : string;
  wi_eth_balance : Q;
  wi_whale_class : string;
  wi_label : option string;
  wi_exchange : option string;
  wi_discovery_method : string;
  wi_chain : string
}.

(** The dict built by [track_exchange_whales]. *)
Record ExchangeMovement : Type := {
  em_hash : string;
  em_exchange : string;
  em_exchange_address : string;
  em_whale_address : string;
  em_movement_type : string;
  em_value_eth : Q;
  em_whale_class : string;
  em_whale_label : option string;
  em_timestamp : Z;
  em_block_number : string;
  em_chain : string
}.

(** ** Exceptions and the state-and-error monad *)

(** The exception classes the [except] clauses tell apart; [PlainException]
    is an instance of [Exception] itself, as raised by
    [raise Exception(...)]. *)
Inductive pyexc : Type :=
| HTTPError
| ValueError
| KeyError
| PlainException.

Inductive outcome (A : Type) : Type :=
| Ok (a : A)
| Raise (e : pyexc).
Arguments Ok {A} a.
Arguments Raise {A} e.

(** A computation over a state [St]; the state survives a raise, as
    Python's mutable locals and the outside world do. *)
Definition M (St A : Type) : Type := St -> outcome A * St.

Definition ret {St A : Type} (a : A) : M St A := fun s => (Ok a, s).

Definition raise {St A : Type} (e : pyexc) : M St A := fun s => (Raise e, s).

Definition bind {St A B : Type} (m : M St A) (f : A -> M St B) : M St B :=
  fun s =>
    match m s with
    | (Ok a, s') => f a s'
    | (Raise e, s') => (Raise e, s')
    end.

Notation "x <- m ;; k" := (bind m (fun x => k))
  (at level 61, m at next level, right associativity).
Notation "m ;;; k" := (bind m (fun _ => k))
  (at level 61, right associativity).

(** [try: m except (classes): handler] *)
Definition try_except {St A : Type} (m : M St A) (caught : pyexc -> bool)
    (handler : pyexc -> M St A) : M St A :=
  fun s =>
    match m s with
    | (Ok a, s') => (Ok a, s')
    | (Raise e, s') => if caught e then handler e s' else (Raise e, s')
    end.

(** [for a in l: body(a)] *)
Fixpoint for_each {St A : Type} (l : list A) (body : A -> M St unit) : M St unit :=
  match l with
  | [] => ret tt
  | a :: r => body a ;;; for_each r body
  end.

(** An action on the world run next to the locals [L]. *)
Definition io {L W A : Type} (m : M W A) : M (L * W) A :=
  fun s =>
    match m (snd s) with
    | (r, w') => (r, (fst s, w'))
    end.

(** An assignment to the locals. *)
Definition update {L W : Type} (f : L -> L) : M (L * W) unit :=
  fun s => (Ok tt, (f (fst s), snd s)).

(** Read the locals. *)
Definition locals {L W : Type} : M (L * W) L :=
  fun s => (Ok (fst s), s).

(** Run a computation with fresh locals [l0] and hand back the locals it
    ends with. *)
Definition with_locals {L W : Type} (l0 : L) (m : M (L * W) unit) : M W L :=
  fun w =>
    match m (l0, w) with
    | (Ok _, (l, w')) => (Ok l, w')
    | (Raise e, (_, w')) => (Raise e, w')
    end.

(** [except (httpx.HTTPError, ValueError, KeyError)] *)
Definition caught_batch (e : pyexc) : bool :=
  match e with
  | HTTPError | ValueError | KeyError => true
  | PlainException => false
  end.

(** [except (httpx.HTTPError, ValueError)] *)
Definition caught_lookup (e : pyexc) : bool :=
  match e with
  | HTTPError | ValueError => true
  | KeyError | PlainException => false
  end.

(** ** The detector *)

(** The state of a [WhaleDetector] and what it reaches through
    [self.blockchain], the clock and the event loop, over a world [W]
    (explorer state, time). *)
Record Detector (W : Type) : Type := {
  (** [self.chain] *)
  self_chain : string;
  (** [self.known_whales] *)
  known_whales : dict;
  (** [self.exchange_addresses] *)
  exchange_addresses : dict;
  (** [float(await self.blockchain.get_balance(address))]: the service
      formats the balance with six decimals and every caller parses the
      string at once, inside the same [try]. *)
  get_balance : string -> M W Q;
  (** [self.blockchain.get_transactions(address, page=1, offset=n)] *)
  get_transactions : string -> nat -> M W (list Transaction);
  (** [self.blockchain.get_token_transfers(address, page=1, offset=n)] *)
  get_token_transfers : string -> nat -> M W (list TokenTransfer);
  (** [datetime.now()], in microseconds *)
  now : W -> Z;
  (** [asyncio.sleep(seconds)] *)
  sleep : Q -> W -> W
}.
Arguments self_chain {W} _.
Arguments known_whales {W} _.
Arguments exchange_addresses {W} _.
Arguments get_balance {W} _ _ _.
Arguments get_transactions {W} _ _ _ _.
Arguments get_token_transfers {W} _ _ _ _.
Arguments now {W} _ _.
Arguments sleep {W} _ _ _.

Section WhaleDetector.

Context {W : Type}.

(** The detector instance, Python's [self]. *)
Variable self : Detector W.

Definition clock : M W Z := fun w => (Ok ((now self) w), w).

Definition do_sleep (seconds : Q) : M W unit := fun w => (Ok tt, (sleep self) seconds w).

(** [WhaleDetector._calculate_activity_score], with the value of
    [datetime.now()] as [t]. *)
Definition _calculate_activity_score (t : Z) (transactions : list Transaction) : Q :=
  match transactions with
  | [] => 0
  | _ =>
      let recent_count :=
        List.length (filter (fun tx => (timedelta_days t (tx_timeStamp tx) <=? 30)%Z)
                       (firstn 20 transactions)) in
      Qmin 100 ((inject_Z (Z.of_nat recent_count) / 20) * 100)
  end.

(** [sum(1 for tx in transactions if int(tx["value"]) / 10**18 > 100)
     / len(transactions)] *)
Definition large_tx_ratio (transactions : list Transaction) : Q :=
  inject_Z (Z.of_nat (List.length (filter (fun tx => Qgt_bool (tx_value_eth tx) 100)
                                     transactions)))
  / inject_Z (Z.of_nat (List.length transactions)).

(** [address.lower() in [addr.lower() for addr in self.known_whales.keys()]] *)
Definition is_known_whale (address : string) : bool :=
  existsb (String.eqb (lower address)) (map lower (keys (known_whales self))).

(** The list [risk_factors] that [_calculate_risk_score] builds. *)
Definition risk_factors (t : Z) (address : string)
    (transactions : list Transaction) (balance : Q) : list Z :=
  ((if Qgt_bool balance 1000 then [30] else [])
   ++ (if is_known_whale address then [-20] else [])
   ++ (match transactions with
       | [] => []
       | _ => if Qgt_bool (large_tx_ratio transactions) (1 # 2) then [25] else []
       end)
   ++ (match transactions with
       | [] => []
       | tx0 :: r =>
           if (timedelta_days t (tx_timeStamp (last r tx0)) <? 30)%Z
           then [40] else []
       end))%Z.

(** [max(0.0, min(100.0, total_risk))] *)
Definition clamp_risk (total_risk : Z) : Q :=
  Qmax 0 (Qmin 100 (inject_Z total_risk)).

(** [WhaleDetector._calculate_risk_score] *)
Definition _calculate_risk_score (t : Z) (address : string)
    (transactions : list Transaction) (balance : Q) : Q :=
  clamp_risk (Zsum (risk_factors t address transactions balance)).

(** [WhaleDetector.get_whale_label] *)
Definition get_whale_label (address : string) : option string :=
  dict_get (known_whales self) (lower address).

(** [WhaleDetector.is_exchange_address] *)
Definition is_exchange_address (address : string) : option string :=
  dict_get (exchange_addresses self) (lower address).

(** [len(unique_tokens)] after adding
    [transfer.get("contractAddress", "")] of every transfer. *)
Definition count_unique_tokens (token_transfers : list TokenTransfer) : nat :=
  List.length (nodup string_dec
            (map (fun tr => match contractAddress tr with
                            | Some a => a
                            | None => EmptyString
                            end) token_transfers)).

(** The body of the [try] of [analyze_whale]. *)
Definition analyze_whale_body (addr : string) : M W WhaleMetrics :=
  balance <- (get_balance self) addr ;;
  let whale_class := classify_whale balance in
  transactions <- (get_transactions self) addr 100 ;;
  match transactions with
  | [] =>
      ret {| address := addr;
             eth_balance := balance;
             whale_class := whale_class;
             total_transactions := 0;
             large_transactions := 0;
             avg_transaction_value := 0;
             max_transaction_value := 0;
             first_seen := None;
             last_activity := None;
             activity_score := 0;
             risk_score := 0;
             token_diversity := 0;
             chain := (self_chain self) |}
  | tx0 :: r =>
      let transaction_values := map tx_value_eth transactions in
      let large := List.length (filter (fun v => Qgt_bool v 50) transaction_values) in
      let avg := Qsum transaction_values
                 / inject_Z (Z.of_nat (List.length transaction_values)) in
      let mx := Qmax_list transaction_values in
      t1 <- clock ;;
      let activity := _calculate_activity_score t1 transactions in
      t2 <- clock ;;
      let risk := _calculate_risk_score t2 addr transactions balance in
      token_transfers <- (get_token_transfers self) addr 50 ;;
      ret {| address := addr;
             eth_balance := balance;
             whale_class := whale_class;
             total_transactions := List.length transactions;
             large_transactions := large;
             avg_transaction_value := avg;
             max_transaction_value := mx;
             first_seen := Some (tx_timeStamp (last r tx0));
             last_activity := Some (tx_timeStamp tx0);
             activity_score := activity;
             risk_score := risk;
             token_diversity := count_unique_tokens token_transfers;
             chain := (self_chain self) |}
  end.

(** [WhaleDetector.analyze_whale]: whatever the body raises is replaced
    by a fresh [Exception] ([except Exception as e: raise Exception(...)]). *)
Definition analyze_whale (addr : string) : M W WhaleMetrics :=
  try_except (analyze_whale_body addr) (fun _ => true)
             (fun _ => raise PlainException).

(** The loop of [compare_whales]; the local is [whale_metrics]. *)
Definition compare_whales_loop (addresses : list string)
    : M (list WhaleMetrics * W) unit :=
  for_each addresses (fun addr =>
    try_except
      (metrics <- io (analyze_whale addr) ;;
       update (fun whale_metrics => whale_metrics ++ [metrics]) ;;;
       io (do_sleep (2 # 10)))
      caught_batch
      (fun _ => ret tt)).

(** [WhaleDetector.compare_whales] *)
Definition compare_whales (addresses : list string) : M W (list WhaleMetrics) :=
  whale_metrics <- with_locals [] (compare_whales_loop addresses) ;;
  ret (sort_desc eth_balance whale_metrics).

(** [WhaleDetector._get_whale_class_cached] *)
Definition _get_whale_class_cached (addr : string) : M W (option WhaleClass) :=
  try_except
    (balance <- (get_balance self) addr ;; ret (Some (classify_whale balance)))
    caught_lookup
    (fun _ => ret None).

(** [c.value if c else "unknown"] *)
Definition class_or_unknown (c : option WhaleClass) : string :=
  match c with
  | Some c => WhaleClass_value c
  | None => "unknown"%string
  end.

(** The loop of [discover_whale_movements]; the local is
    [whale_movements]. *)
Definition discover_whale_movements_loop (min_value : Q)
    (monitor_addresses : list string) : M (list Movement * W) unit :=
  for_each (firstn 10 monitor_addresses) (fun addr =>
    try_except
      (transactions <- io ((get_transactions self) addr 20) ;;
       for_each transactions (fun tx =>
         let value := tx_value_eth tx in
         if Qle_bool min_value value then
           from_whale_class <- io (_get_whale_class_cached (tx_from tx)) ;;
           to_whale_class <- io (_get_whale_class_cached (tx_to tx)) ;;
           update (fun whale_movements => whale_movements ++ [
             {| mv_hash := tx_hash tx;
                mv_from_address := tx_from tx;
                mv_to_address := tx_to tx;
                mv_value_eth := value;
                mv_timestamp := tx_timeStamp tx;
                mv_block_number := tx_blockNumber tx;
                mv_from_whale_class := class_or_unknown from_whale_class;
                mv_to_whale_class := class_or_unknown to_whale_class;
                mv_from_label := get_whale_label (tx_from tx);
                mv_to_label := get_whale_label (tx_to tx);
                mv_from_exchange := is_exchange_address (tx_from tx);
                mv_to_exchange := is_exchange_address (tx_to tx);
                mv_chain := (self_chain self) |}])
         else ret tt) ;;;
       io (do_sleep (3 # 10)))
      caught_batch
      (fun _ => ret tt)).

(** [WhaleDetector.discover_whale_movements] ([hours_back] is unused by
    the source). *)
Definition discover_whale_movements (min_value : Q) : M W (list Movement) :=
  whale_movements <-
    with_locals [] (discover_whale_movements_loop min_value
                      (keys (known_whales self) ++ keys (exchange_addresses self))) ;;
  ret (firstn 50 (sort_desc mv_value_eth whale_movements)).

(** First loop of [discover_top_whales]; the local is the dict
    [discovered_whales]. *)
Definition discover_top_whales_seed_loop : M (dict * W) unit :=
  for_each (firstn 5 (keys (known_whales self))) (fun seed_address =>
    try_except
      (transactions <- io ((get_transactions self) seed_address 50) ;;
       for_each transactions (fun tx =>
         if Qle_bool 50 (tx_value_eth tx) then
           for_each [tx_from tx; tx_to tx] (fun addr =>
             update (fun discovered_whales =>
               if dict_mem discovered_whales (lower addr) then discovered_whales
               else dict_add discovered_whales (lower addr) addr))
         else ret tt) ;;;
       io (do_sleep (3 # 10)))
      caught_batch
      (fun _ => ret tt)).

(** Second loop of [discover_top_whales]; the local is [whale_list]. *)
Definition discover_top_whales_balance_loop (min_balance : Q)
    (discovered : list string) : M (list WhaleInfo * W) unit :=
  for_each (firstn 30 discovered) (fun addr =>
    try_except
      (balance <- io ((get_balance self) addr) ;;
       (if Qle_bool min_balance balance then
          update (fun whale_list => whale_list ++ [
            {| wi_address := addr;
               wi_eth_balance := balance;
               wi_whale_class := WhaleClass_value (classify_whale balance);
               wi_label := get_whale_label addr;
               wi_exchange := is_exchange_address addr;
               wi_discovery_method := "transaction_analysis";
               wi_chain := (self_chain self) |}])
        else ret tt) ;;;
       io (do_sleep (2 # 10)))
      caught_batch
      (fun _ => ret tt)).

(** [WhaleDetector.discover_top_whales] *)
Definition discover_top_whales (min_balance : Q) : M W (list WhaleInfo) :=
  discovered_whales <- with_locals [] discover_top_whales_seed_loop ;;
  whale_list <-
    with_locals [] (discover_top_whales_balance_loop min_balance
                      (values discovered_whales)) ;;
  ret (firstn 20 (sort_desc wi_eth_balance whale_list)).

(** Lines 403-408 of [track_exchange_whales]: the movement type and the
    counterparty of a transaction seen from [exchange_addr]. *)
Definition movement_side (exchange_addr : string) (tx : Transaction)
    : string * string :=
  if String.eqb (lower (tx_to tx)) (lower exchange_addr)
  then ("deposit"%string, tx_from tx)
  else ("withdrawal"%string, tx_to tx).

(** The loop of [track_exchange_whales]; the local is
    [exchange_movements]. *)
Definition track_exchange_whales_loop (min_amount : Q)
    : M (list ExchangeMovement * W) unit :=
  for_each (firstn 5 (keys (exchange_addresses self))) (fun exchange_addr =>
    try_except
      (exchange_name <-
         match dict_get (exchange_addresses self) exchange_addr with
         | Some n => ret n
         | None => raise KeyError
         end ;;
       transactions <- io ((get_transactions self) exchange_addr 30) ;;
       for_each transactions (fun tx =>
         let value := tx_value_eth tx in
         if Qle_bool min_amount value then
           let movement_type := fst (movement_side exchange_addr tx) in
           let whale_address := snd (movement_side exchange_addr tx) in
           whale_class <- io (_get_whale_class_cached whale_address) ;;
           update (fun exchange_movements => exchange_movements ++ [
             {| em_hash := tx_hash tx;
                em_exchange := exchange_name;
                em_exchange_address := exchange_addr;
                em_whale_address := whale_address;
                em_movement_type := movement_type;
                em_value_eth := value;
                em_whale_class := class_or_unknown whale_class;
                em_whale_label := get_whale_label whale_address;
                em_timestamp := tx_timeStamp tx;
                em_block_number := tx_blockNumber tx;
                em_chain := (self_chain self) |}])
         else ret tt) ;;;
       io (do_sleep (3 # 10)))
      caught_batch
      (fun _ => ret tt)).

(** [WhaleDetector.track_exchange_whales] *)
Definition track_exchange_whales (min_amount : Q) : M W (list ExchangeMovement) :=
  exchange_movements <- with_locals [] (track_exchange_whales_loop min_amount) ;;
  ret (firstn 30 (sort_desc em_value_eth exchange_movements)).

End WhaleDetector.

(** ** Notions of the specification, for comparison with the code *)










(** A list is in descending order of [key]. *)
Definition descending {A : Type} (key : A -> Q) (l : list A) : Prop :=
  StronglySorted (fun a b => key b <= key a) l.

(** The elements of [l] whose key equals [k], in the order of [l]. *)
Definition with_key {A : Type} (key : A -> Q) (k : Q) (l : list A) : list A :=
  filter (fun x => Qeq_bool (key x) k) l.

(** Every step of [m] keeps the property [I] of the state, whether it
    returns or raises. *)
Definition preserves {St A : Type} (I : St -> Prop) (m : M St A) : Prop :=
  forall s, I s -> I (snd (m s)).

(** [a] is a value that [m] can return. *)
Definition returns {St A : Type} (m : M St A) (a : A) : Prop :=
  exists s s', m s = (Ok a, s').

(** A property of the locals alone, as a property of the state. *)
Definition on_locals {L W : Type} (P : L -> Prop) : L * W -> Prop :=
  fun s => P (fst s).


(** The class string [c] is what [_get_whale_class_cached] gives for
    [addr]: the value of the class of a balance fetched for it, or
    ["unknown"]. *)
Definition class_string_of {W : Type} (self : Detector W) (addr c : string) : Prop :=
  c = "unknown"%string \/
  exists b, returns (get_balance self addr) b /\
            c = WhaleClass_value (classify_whale b).

(** The movement [m] was built by [discover_whale_movements] from [tx],
    fetched for one of the first ten monitored addresses. *)
Definition movement_of {W : Type} (self : Detector W) (min_value : Q)
    (m : Movement) (tx : Transaction) : Prop :=
  (exists addr txs,
      In addr (firstn 10 (keys (known_whales self)
                          ++ keys (exchange_addresses self))) /\
      returns (get_transactions self addr 20) txs /\ In tx txs) /\
  min_value <= tx_value_eth tx /\
  mv_hash m = tx_hash tx /\
  mv_from_address m = tx_from tx /\
  mv_to_address m = tx_to tx /\
  mv_value_eth m = tx_value_eth tx /\
  mv_timestamp m = tx_timeStamp tx /\
  mv_block_number m = tx_blockNumber tx /\
  class_string_of self (tx_from tx) (mv_from_whale_class m) /\
  class_string_of self (tx_to tx) (mv_to_whale_class m) /\
  mv_from_label m = get_whale_label self (tx_from tx) /\
  mv_to_label m = get_whale_label self (tx_to tx) /\
  mv_from_exchange m = is_exchange_address self (tx_from tx) /\
  mv_to_exchange m = is_exchange_address self (tx_to tx) /\
  mv_chain m = self_chain self.

(** The record [i] is what [discover_top_whales] builds for an address
    whose fetched balance reaches [min_balance]. *)
Definition whale_info_of {W : Type} (self : Detector W) (min_balance : Q)
    (i : WhaleInfo) : Prop :=
  returns (get_balance self (wi_address i)) (wi_eth_balance i) /\
  min_balance <= wi_eth_balance i /\
  wi_whale_class i = WhaleClass_value (classify_whale (wi_eth_balance i)) /\
  wi_label i = get_whale_label self (wi_address i) /\
  wi_exchange i = is_exchange_address self (wi_address i) /\
  wi_discovery_method i = "transaction_analysis"%string /\
  wi_chain i = self_chain self.

(** The annotations [track_exchange_whales] attaches to a movement. *)
Definition exchange_movement_annotated {W : Type} (self : Detector W)
    (m : ExchangeMovement) : Prop :=
  dict_get (exchange_addresses self) (em_exchange_address m) = Some (em_exchange m) /\
  (em_movement_type m = "deposit"%string \/
   em_movement_type m = "withdrawal"%string) /\
  class_string_of self (em_whale_address m) (em_whale_class m) /\
  em_whale_label m = get_whale_label self (em_whale_address m) /\
  em_chain m = self_chain self.

(** The dict [discovered_whales] maps each lower-cased address to an
    address with that lower-case form, every key once. *)
Definition discovered_dict_ok (d : dict) : Prop :=
  NoDup (keys d) /\ forall k v, In (k, v) d -> k = lower v.

(** ** The exchange-flow summary of the tool layer ([server.py])

    The computations of the [track_exchange_whales] tool on the list the
    detector returns; the text it formats around them is not modelled. *)





(** ** A sample detector

    The Ethereum tables of [chains.py] and a small explorer whose world
    counts the requests made. *)

Definition ethereum_known_whales : dict :=
  [ ("0xde0b295669a9fd93d5f28d9ec85e40f4cb697bae", "Ethereum Foundation");
    ("0xc02aaa39b223fe8d0a0e5c4f27ead9083c756cc2", "WETH Contract");
    ("0xbe0eb53f46cd790cd13851d5eff43d12404d33e8", "Binance 7");
    ("0x28c6c06298d514db089934071355e5743bf21d60", "Binance 14");
    ("0xdfd5293d8e347dfe59e90efd55b2956a1343963d", "Binance 8");
    ("0x47ac0fb4f2d84898e4d9e7b4dab3c24507a6d503", "Binance: Binance-Peg Tokens") ]%string.

Definition ethereum_exchange_addresses : dict :=
  [ ("0x28c6c06298d514db089934071355e5743bf21d60", "Binance");
    ("0xa090e606e30bd747d4e6245a1517ebe430f0057e", "Gemini");
    ("0x6cc5f688a315f3dc28a7781717a9a798a59fda7b", "OKEx");
    ("0x2b5634c42055806a59e9107ed44d43c426e58258", "KuCoin");
    ("0x71660c4005ba85c37ccec55d0c4493e66fe775d3", "Coinbase");
    ("0xfbb1b73c4f0bda4f67dca266ce6ef42f520fbb98", "Bittrex") ]%string.

(** Whole tokens in wei. *)
Definition tokens (n : Z) : Z := (n * 10 ^ 18)%Z.

(** Transactions of the Binance address: a deposit of 600 (recipient in
    mixed case), a withdrawal of 700 and a transfer of 1. *)
Definition binance_transactions : list Transaction :=
  [ {| tx_hash := "0xt1"; tx_from := "0xalice";
       tx_to := "0x28C6C06298D514DB089934071355E5743BF21D60";
       tx_value := tokens 600; tx_timeStamp := 1700000300; tx_blockNumber := "103" |};
    {| tx_hash := "0xt2"; tx_from := "0x28c6c06298d514db089934071355e5743bf21d60";
       tx_to := "0xbob";
       tx_value := tokens 700; tx_timeStamp := 1700000200; tx_blockNumber := "102" |};
    {| tx_hash := "0xt3"; tx_from := "0xcarol";
       tx_to := "0x28c6c06298d514db089934071355e5743bf21d60";
       tx_value := tokens 1; tx_timeStamp := 1700000100; tx_blockNumber := "101" |} ]%string.

Definition sample_get_balance (a : string) : M nat Q :=
  fun w =>
    if String.eqb a "0xdown" then (Raise PlainException, S w)
    else if String.eqb a "0xalice" then (Ok 12000, S w)
    else if String.eqb a "0xbob" then (Ok 1500, S w)
    else if String.eqb a "0xcarol" then (Ok 1500, S w)
    else (Ok 5, S w).

Definition sample_get_transactions (a : string) (offset : nat)
    : M nat (list Transaction) :=
  fun w =>
    if String.eqb a "0x28c6c06298d514db089934071355e5743bf21d60"
    then (Ok (firstn offset binance_transactions), S w)
    else (Ok [], S w).

Definition sample_detector : Detector nat :=
  {| self_chain := "ethereum";
     known_whales := ethereum_known_whales;
     exchange_addresses := ethereum_exchange_addresses;
     get_balance := sample_get_balance;
     get_transactions := sample_get_transactions;
     get_token_transfers := fun _ _ w => (Ok [], S w);
     now := fun _ => 1700000400000000%Z;
     sleep := fun _ w => w |}.

(** ** Input validation ([validators.py]) *)

(** A character of the class [[a-fA-F0-9]]. *)
Definition is_hex_digit (c : ascii) : bool :=
  let n := nat_of_ascii c in
  ((48 <=? n)%nat && (n <=? 57)%nat)
  || ((97 <=? n)%nat && (n <=? 102)%nat)
  || ((65 <=? n)%nat && (n <=? 70)%nat).

(** The tail [[a-fA-F0-9]{n}$] of the address pattern: [n] hex digits up
    to the end of the string; Python's [$] also matches just before a
    newline that ends the string. *)
Fixpoint hex_run (n : nat) (s : string) : bool :=
  match n, s with
  | O, EmptyString => true
  | O, String c EmptyString => Ascii.eqb c "010"%char
  | S n', String c r => is_hex_digit c && hex_run n' r
  | _, _ => false
  end.

(** [re.match(r"^0x[a-fA-F0-9]{40}$", address)] *)
Definition address_re_match (address : string) : bool :=
  match address with
  | String c0 (String c1 r) =>
      Ascii.eqb c0 "0"%char && Ascii.eqb c1 "x"%char && hex_run 40 r
  | _ => false
  end.

(** [validate_address], on a [str] argument. *)
Definition validate_address (address : string) : outcome string :=
  if address_re_match address then Ok (lower address) else Raise ValueError.

(** [validate_positive] *)
Definition validate_positive (value : Q) : outcome Q :=
  if Qle_bool value 0 then Raise ValueError else Ok value.

(** [validate_chain] *)
Definition validate_chain (chain : string) (supported : list string)
    : outcome string :=
  let chain_lower := lower chain in
  if existsb (String.eqb chain_lower) supported then Ok chain_lower
  else Raise ValueError.

(** ** The chain registry ([chains.py]) *)

Record ChainConfig : Type := {
  cfg_name : string;
  cfg_symbol : string;
  cfg_api_url : string;
  cfg_api_key_env : string;
  cfg_explorer_url : string;
  cfg_chain_id : Z;
  cfg_price_action : string;
  cfg_supply_action : string
}.

Definition ETHERSCAN_V2_API : string := "https://api.etherscan.io/v2/api".

(** [table.get(k)] on a dict with string keys. *)
Fixpoint table_get {A : Type} (t : list (string * A)) (k : string) : option A :=
  match t with
  | [] => None
  | (k', v) :: r => if String.eqb k' k then Some v else table_get r k
  end.

Definition CHAIN_REGISTRY : list (string * ChainConfig) :=
  [ ("ethereum"%string,
     {| cfg_name := "Ethereum"; cfg_symbol := "ETH";
        cfg_api_url := ETHERSCAN_V2_API;
        cfg_api_key_env := "ETHERSCAN_API_KEY";
        cfg_explorer_url := "https://etherscan.io";
        cfg_chain_id := 1;
        cfg_price_action := "ethprice"; cfg_supply_action := "ethsupply" |});
    ("bsc"%string,
     {| cfg_name := "BNB Smart Chain"; cfg_symbol := "BNB";
        cfg_api_url := ETHERSCAN_V2_API;
        cfg_api_key_env := "ETHERSCAN_API_KEY";
        cfg_explorer_url := "https://bscscan.com";
        cfg_chain_id := 56;
        cfg_price_action := "bnbprice"; cfg_supply_action := "bnbsupply" |}) ].

Definition bsc_known_whales : dict :=
  [ ("0xf977814e90da44bfa03b6295a0616a897441acec", "Binance Hot Wallet 20");
    ("0x8894e0a0c962cb723c1976a4421c95949be2d4e3", "Binance Hot Wallet 6");
    ("0xbb4cdb9cbd36b01bd1cbaebf2de08d9173bc095c", "WBNB Contract");
    ("0x0000000000000000000000000000000000001004", "BSC Token Hub");
    ("0x10ed43c718714eb63d5aa57b78b54704e256024e", "PancakeSwap Router v2");
    ("0x0e09fabb73bd3ade0a17ecc321fd13a19e81ce82", "CAKE Token");
    ("0x55d398326f99059ff775485246999027b3197955", "Binance-Peg USDT") ]%string.

Definition bsc_exchange_addresses : dict :=
  [ ("0xf977814e90da44bfa03b6295a0616a897441acec", "Binance");
    ("0x8894e0a0c962cb723c1976a4421c95949be2d4e3", "Binance 6");
    ("0x28c6c06298d514db089934071355e5743bf21d60", "Binance 14");
    ("0x7c0629bbbaf7d68ffaa393e3fedc9b633679fa5f", "OKX");
    ("0xf89d7b9c864f589bbf53a82105107622b35eaa40", "Bybit");
    ("0x53f78a071d04224b8e254e243fffc6d9f2f3fa23", "KuCoin");
    ("0x0d0707963952f2fba59dd06f2b425ace40b492fe", "Gate.io");
    ("0x72a53cdbbcc1b9efa39c834a540550e23463aacb", "Crypto.com");
    ("0xefdca55e4bce6c1d535cb2d0687b5567eef2ae83", "Huobi") ]%string.

Definition KNOWN_WHALES : list (string * dict) :=
  [ ("ethereum"%string, ethereum_known_whales); ("bsc"%string, bsc_known_whales) ].

Definition EXCHANGE_ADDRESSES : list (string * dict) :=
  [ ("ethereum"%string, ethereum_exchange_addresses);
    ("bsc"%string, bsc_exchange_addresses) ].

(** [get_chain_config] *)
Definition get_chain_config (chain : string) : outcome ChainConfig :=
  match table_get CHAIN_REGISTRY (lower chain) with
  | Some c => Ok c
  | None => Raise ValueError
  end.

(** [get_supported_chains] *)
Definition get_supported_chains : list string := map fst CHAIN_REGISTRY.

(** [get_known_whales] *)
Definition get_known_whales (chain : string) : dict :=
  match table_get KNOWN_WHALES (lower chain) with
  | Some d => d
  | None => []
  end.

(** [get_exchange_addresses] *)
Definition get_exchange_addresses (chain : string) : dict :=
  match table_get EXCHANGE_ADDRESSES (lower chain) with
  | Some d => d
  | None => []
  end.

(** [WhaleDetector.__init__]: the methods of [blockchain_service], the
    clock and the event loop come as operations on the world. *)
Definition WhaleDetector_init {W : Type} (chain : string)
    (blockchain_get_balance : string -> M W Q)
    (blockchain_get_transactions : string -> nat -> M W (list Transaction))
    (blockchain_get_token_transfers : string -> nat -> M W (list TokenTransfer))
    (clock_now : W -> Z) (loop_sleep : Q -> W -> W) : Detector W :=
  {| self_chain := lower chain;
     known_whales := get_known_whales (lower chain);
     exchange_addresses := get_exchange_addresses (lower chain);
     get_balance := blockchain_get_balance;
     get_transactions := blockchain_get_transactions;
     get_token_transfers := blockchain_get_token_transfers;
     now := clock_now;
     sleep := loop_sleep |}.

(** Position of a class in the order SHRIMP < SMALL < MEDIUM < LARGE < MEGA. *)
Definition WhaleClass_rank (c : WhaleClass) : nat :=
  match c with
  | SHRIMP => 0
  | SMALL_WHALE => 1
  | MEDIUM_WHALE => 2
  | LARGE_WHALE => 3
  | MEGA_WHALE => 4
  end.

(** Every key of the dict is its own lower-case form. *)
Definition lowercase_keys (d : dict) : Prop :=
  forall k, In k (keys d) -> lower k = k.

(** ** Comparison helpers *)

Lemma Qle_bool_true (a b : Q) : Qle_bool a b = true <-> a <= b.
Proof. apply Qle_bool_iff. Qed.

Lemma Qle_bool_false (a b : Q) : Qle_bool a b = false <-> b < a.
Proof.
  split; intro H.
  - apply Qnot_le_lt. intro Hle. apply Qle_bool_iff in Hle. congruence.
  - destruct (Qle_bool a b) eqn:E; [|reflexivity].
    apply Qle_bool_iff in E. exfalso. exact (Qlt_not_le _ _ H E).
Qed.

Ltac qcases :=
  repeat match goal with
  | |- context [Qle_bool ?a ?b] =>
      let E := fresh "E" in
      destruct (Qle_bool a b) eqn:E;
      [apply Qle_bool_true in E | apply Qle_bool_false in E]
  end.

Ltac qabsurd :=
  match goal with
  | H1 : ?a <= ?b, H2 : ?b < ?c |- _ =>
      exfalso; apply (Qlt_irrefl a);
      apply (Qle_lt_trans _ _ _ H1); apply (Qlt_trans _ _ _ H2); reflexivity
  | H1 : ?a <= ?b, H2 : ?b < ?a |- _ =>
      exfalso; exact (Qlt_not_le _ _ H2 H1)
  end.

(** ** Theorems on the threshold functions *)

(** C1: [classify_whale] is a total function of the balance; it returns
    MEGA_WHALE iff b >= 10000, LARGE_WHALE iff 1000 <= b < 10000, MEDIUM_WHALE
    iff 100 <= b < 1000, SMALL_WHALE iff 10 <= b < 100 and SHRIMP iff b < 10
    (so for every zero or negative balance); 9999.999999 is LARGE_WHALE and
    10000.0 is MEGA_WHALE. *)
Theorem classify_whale_thresholds :
  (forall b : Q,
      (classify_whale b = MEGA_WHALE <-> 10000 <= b) /\
      (classify_whale b = LARGE_WHALE <-> 1000 <= b /\ b < 10000) /\
      (classify_whale b = MEDIUM_WHALE <-> 100 <= b /\ b < 1000) /\
      (classify_whale b = SMALL_WHALE <-> 10 <= b /\ b < 100) /\
      (classify_whale b = SHRIMP <-> b < 10)) /\
  (forall b : Q, b <= 0 -> classify_whale b = SHRIMP) /\
  classify_whale (9999999999 # 1000000) = LARGE_WHALE /\
  classify_whale 10000 = MEGA_WHALE.
Proof.
  assert (Hall : forall b : Q,
      (classify_whale b = MEGA_WHALE <-> 10000 <= b) /\
      (classify_whale b = LARGE_WHALE <-> 1000 <= b /\ b < 10000) /\
      (classify_whale b = MEDIUM_WHALE <-> 100 <= b /\ b < 1000) /\
      (classify_whale b = SMALL_WHALE <-> 10 <= b /\ b < 100) /\
      (classify_whale b = SHRIMP <-> b < 10)).
  { intro b. unfold classify_whale. qcases;
      repeat split; intros; try discriminate; try tauto;
      repeat match goal with H : _ /\ _ |- _ => destruct H end;
      try qabsurd;
      try (eapply Qle_trans; [|eassumption]; discriminate). }
  split; [exact Hall|]. split; [|split; reflexivity].
  intros b Hb. apply (Hall b).
  apply (Qle_lt_trans _ _ _ Hb). reflexivity.
Qed.

(** C6: [get_movement_significance] yields the mega tag iff v >= 10000,
    critical iff 5000 <= v < 10000, major iff 1000 <= v < 5000, significant
    iff 500 <= v < 1000 and notable iff v < 500; the boundary values 499,
    500, 999, 1000, 4999, 5000, 9999 and 10000 land as documented. *)
Theorem get_movement_significance_thresholds :
  (forall v : Q,
      (get_movement_significance v = "[!!!] MEGA MOVEMENT"%string <-> 10000 <= v) /\
      (get_movement_significance v = "[!!] CRITICAL"%string <-> 5000 <= v /\ v < 10000) /\
      (get_movement_significance v = "[!] MAJOR"%string <-> 1000 <= v /\ v < 5000) /\
      (get_movement_significance v = "[*] SIGNIFICANT"%string <-> 500 <= v /\ v < 1000) /\
      (get_movement_significance v = "[-] NOTABLE"%string <-> v < 500)) /\
  get_movement_significance 499 = "[-] NOTABLE"%string /\
  get_movement_significance 500 = "[*] SIGNIFICANT"%string /\
  get_movement_significance 999 = "[*] SIGNIFICANT"%string /\
  get_movement_significance 1000 = "[!] MAJOR"%string /\
  get_movement_significance 4999 = "[!] MAJOR"%string /\
  get_movement_significance 5000 = "[!!] CRITICAL"%string /\
  get_movement_significance 9999 = "[!!] CRITICAL"%string /\
  get_movement_significance 10000 = "[!!!] MEGA MOVEMENT"%string.
Proof.
  split; [|repeat split; reflexivity].
  intro v. unfold get_movement_significance. qcases;
    repeat split; intros; try discriminate; try tauto;
    repeat match goal with H : _ /\ _ |- _ => destruct H end;
    try qabsurd;
    try (eapply Qle_trans; [|eassumption]; discriminate).
Qed.

(** ** Time arithmetic *)



(** ** The activity score *)






(** ** The risk score *)

Lemma Qgt_bool_true (a b : Q) : Qgt_bool a b = true <-> b < a.
Proof.
  unfold Qgt_bool. rewrite negb_true_iff. apply Qle_bool_false.
Qed.

Lemma Qgt_bool_false (a b : Q) : Qgt_bool a b = false <-> ~ b < a.
Proof.
  rewrite <- Qgt_bool_true. destruct (Qgt_bool a b); intuition congruence.
Qed.

Lemma Zsum_from (l : list Z) (a : Z) :
  fold_left Z.add l a = (a + Zsum l)%Z.
Proof.
  unfold Zsum. revert a.
  induction l as [|x l IH]; intro a; simpl.
  - lia.
  - rewrite (IH (a + x)%Z), (IH x). lia.
Qed.

Lemma Zsum_cons (x : Z) (l : list Z) : Zsum (x :: l) = (x + Zsum l)%Z.
Proof. unfold Zsum at 1. simpl. apply Zsum_from. Qed.

Lemma Zsum_app (l1 l2 : list Z) : Zsum (l1 ++ l2) = (Zsum l1 + Zsum l2)%Z.
Proof.
  induction l1 as [|x l1 IH]; simpl.
  - reflexivity.
  - rewrite !Zsum_cons, IH. lia.
Qed.


Lemma is_known_whale_spec {W : Type} (self : Detector W) (a : string) :
  is_known_whale self a = true <->
  exists k, In k (keys (known_whales self)) /\ lower k = lower a.
Proof.
  unfold is_known_whale. rewrite existsb_exists. split.
  - intros [x [Hin Heq]]. apply in_map_iff in Hin. destruct Hin as [k [Hk Hin]].
    apply String.eqb_eq in Heq. exists k. split; congruence.
  - intros [k [Hin Heq]]. exists (lower k). split.
    + apply in_map. exact Hin.
    + apply String.eqb_eq. congruence.
Qed.






(** ** Sorting *)

Lemma insert_desc_Permutation {A : Type} (key : A -> Q) (x : A) (l : list A) :
  Permutation (insert_desc key x l) (x :: l).
Proof.
  induction l as [|y l IH]; simpl.
  - apply Permutation_refl.
  - destruct (Qgt_bool (key y) (key x)).
    + apply perm_trans with (y :: x :: l).
      * apply perm_skip. exact IH.
      * apply perm_swap.
    + apply Permutation_refl.
Qed.

Lemma sort_desc_Permutation {A : Type} (key : A -> Q) (l : list A) :
  Permutation (sort_desc key l) l.
Proof.
  induction l as [|x l IH]; simpl.
  - apply perm_nil.
  - apply perm_trans with (x :: sort_desc key l).
    + apply insert_desc_Permutation.
    + apply perm_skip. exact IH.
Qed.

Lemma insert_desc_descending {A : Type} (key : A -> Q) (x : A) (l : list A) :
  descending key l -> descending key (insert_desc key x l).
Proof.
  unfold descending. induction l as [|y l IH]; intro Hs; simpl.
  - constructor; constructor.
  - apply StronglySorted_inv in Hs. destruct Hs as [Hl Hy].
    destruct (Qgt_bool (key y) (key x)) eqn:E.
    + apply Qgt_bool_true in E. constructor.
      * apply IH. exact Hl.
      * apply Forall_forall. intros z Hz.
        apply (Permutation_in _ (insert_desc_Permutation key x l)) in Hz.
        destruct Hz as [<-|Hz].
        -- apply Qlt_le_weak. exact E.
        -- rewrite Forall_forall in Hy. apply Hy. exact Hz.
    + apply Qgt_bool_false in E. apply Qnot_lt_le in E.
      constructor.
      * constructor; assumption.
      * constructor; [exact E|].
        apply Forall_forall. intros z Hz.
        rewrite Forall_forall in Hy.
        apply Qle_trans with (key y); [apply Hy; exact Hz|exact E].
Qed.

Lemma sort_desc_descending {A : Type} (key : A -> Q) (l : list A) :
  descending key (sort_desc key l).
Proof.
  induction l as [|x l IH]; simpl.
  - constructor.
  - apply insert_desc_descending. exact IH.
Qed.

Lemma insert_desc_with_key {A : Type} (key : A -> Q) (k : Q) (x : A) (l : list A) :
  with_key key k (insert_desc key x l) = with_key key k (x :: l).
Proof.
  unfold with_key. induction l as [|y l IH]; simpl.
  - reflexivity.
  - destruct (Qgt_bool (key y) (key x)) eqn:E; [|reflexivity].
    simpl. rewrite IH. simpl.
    destruct (Qeq_bool (key y) k) eqn:Ey; [|reflexivity].
    destruct (Qeq_bool (key x) k) eqn:Ex; [|reflexivity].
    exfalso. apply Qgt_bool_true in E.
    apply Qeq_bool_iff in Ey. apply Qeq_bool_iff in Ex.
    rewrite Ey, Ex in E. exact (Qlt_irrefl _ E).
Qed.

Lemma sort_desc_stable {A : Type} (key : A -> Q) (k : Q) (l : list A) :
  with_key key k (sort_desc key l) = with_key key k l.
Proof.
  induction l as [|x l IH]; simpl.
  - reflexivity.
  - rewrite insert_desc_with_key. unfold with_key in *. simpl.
    rewrite IH. reflexivity.
Qed.

Lemma firstn_descending {A : Type} (key : A -> Q) (n : nat) (l : list A) :
  descending key l -> descending key (firstn n l).
Proof.
  unfold descending. revert n. induction l as [|x l IH]; intros n Hs.
  - rewrite firstn_nil. constructor.
  - destruct n as [|n]; simpl; [constructor|].
    apply StronglySorted_inv in Hs. destruct Hs as [Hl Hx].
    constructor.
    + apply IH. exact Hl.
    + rewrite Forall_forall in *. intros z Hz. apply Hx.
      rewrite <- (firstn_skipn n l). apply in_or_app. left. exact Hz.
Qed.

Lemma top_sorted {A : Type} (key : A -> Q) (n : nat) (l : list A) :
  (List.length (firstn n (sort_desc key l)) <= n)%nat /\
  descending key (firstn n (sort_desc key l)).
Proof.
  split.
  - apply firstn_le_length.
  - apply firstn_descending. apply sort_desc_descending.
Qed.

(** ** Single-address analysis *)

Section AnalyzeWhale.

Context {W : Type}.
Variable self : Detector W.

Lemma analyze_whale_address (addr : string) (w w' : W) (m : WhaleMetrics) :
  analyze_whale self addr w = (Ok m, w') -> address m = addr.
Proof.
  unfold analyze_whale, try_except, analyze_whale_body, bind, clock, ret, raise.
  destruct (get_balance self addr w) as [[balance|e] w1]; [|discriminate].
  destruct (get_transactions self addr 100 w1) as [[[|tx0 r]|e] w2];
    [| |discriminate].
  - intro H. injection H as <- _. reflexivity.
  - destruct (get_token_transfers self addr 50 w2) as [[tr|e] w3];
      [|discriminate].
    intro H. injection H as <- _. reflexivity.
Qed.

Lemma analyze_whale_raises (addr : string) (w w' : W) (e : pyexc) :
  analyze_whale self addr w = (Raise e, w') -> e = PlainException.
Proof.
  unfold analyze_whale, try_except, raise.
  destruct (analyze_whale_body self addr w) as [[m|e0] w1]; [discriminate|].
  simpl. intro H. injection H as <- _. reflexivity.
Qed.

Lemma analyze_whale_wraps_balance_failure (addr : string) (w w' : W) (e : pyexc) :
  get_balance self addr w = (Raise e, w') ->
  analyze_whale self addr w = (Raise PlainException, w').
Proof.
  intro H. unfold analyze_whale, try_except, analyze_whale_body, bind, raise.
  rewrite H. reflexivity.
Qed.

End AnalyzeWhale.

(** C4: when the balance fetch gives [b] and the transaction fetch gives
    the empty list, [analyze_whale] returns, without raising, the metrics
    record whose counts, values and scores are all zero, whose [first_seen]
    and [last_activity] are [None], and whose class is [classify_whale b]. *)
Theorem analyze_whale_no_transactions :
  forall (W : Type) (self : Detector W) (addr : string) (w w1 w2 : W) (b : Q),
    get_balance self addr w = (Ok b, w1) ->
    get_transactions self addr 100 w1 = (Ok [], w2) ->
    analyze_whale self addr w =
    (Ok {| address := addr;
           eth_balance := b;
           whale_class := classify_whale b;
           total_transactions := 0;
           large_transactions := 0;
           avg_transaction_value := 0;
           max_transaction_value := 0;
           first_seen := None;
           last_activity := None;
           activity_score := 0;
           risk_score := 0;
           token_diversity := 0;
           chain := self_chain self |}, w2).
Proof.
  intros W self addr w w1 w2 b Hb Ht.
  unfold analyze_whale, try_except, analyze_whale_body, bind, ret.
  rewrite Hb, Ht. reflexivity.
Qed.

Lemma analyze_whale_no_transactions_witness :
  analyze_whale sample_detector "0xalice" 0%nat =
  (Ok {| address := "0xalice";
         eth_balance := 12000;
         whale_class := MEGA_WHALE;
         total_transactions := 0;
         large_transactions := 0;
         avg_transaction_value := 0;
         max_transaction_value := 0;
         first_seen := None;
         last_activity := None;
         activity_score := 0;
         risk_score := 0;
         token_diversity := 0;
         chain := "ethereum" |}, 2%nat).
Proof.
  apply (analyze_whale_no_transactions nat sample_detector "0xalice" 0%nat 1%nat 2%nat 12000);
    reflexivity.
Defined.

(** ** Comparison of several addresses *)

Section CompareWhales.

Context {W : Type}.
Variable self : Detector W.

Lemma compare_whales_loop_cons (a : string) (rest : list string)
    (acc : list WhaleMetrics) (w : W) :
  compare_whales_loop self (a :: rest) (acc, w) =
  match analyze_whale self a w with
  | (Ok m, w1) =>
      compare_whales_loop self rest (acc ++ [m], sleep self (2 # 10) w1)
  | (Raise e, w1) =>
      if caught_batch e then compare_whales_loop self rest (acc, w1)
      else (Raise e, (acc, w1))
  end.
Proof.
  unfold compare_whales_loop. simpl for_each.
  unfold bind, try_except, io, update, do_sleep, ret. simpl.
  destruct (analyze_whale self a w) as [[m|e] w1]; simpl.
  - reflexivity.
  - destruct (caught_batch e); reflexivity.
Qed.

(** What a run of the loop leaves in [whale_metrics]: the metrics of the
    addresses analysed, in input order; if the loop ends normally, of
    every input address. *)
Lemma compare_whales_loop_run (addresses : list string) :
  forall (acc : list WhaleMetrics) (w : W) r acc' w',
    compare_whales_loop self addresses (acc, w) = (r, (acc', w')) ->
    exists ms,
      acc' = acc ++ ms /\
      (r = Ok tt -> map address ms = addresses).
Proof.
  induction addresses as [|a rest IH]; intros acc w r acc' w' H.
  - unfold compare_whales_loop in H. simpl in H. unfold ret in H.
    injection H as <- <- <-. exists []. split; [now rewrite app_nil_r|reflexivity].
  - rewrite compare_whales_loop_cons in H.
    destruct (analyze_whale self a w) as [[m|e] w1] eqn:Ea.
    + destruct (IH _ _ _ _ _ H) as [ms [Hacc Hok]].
      exists (m :: ms). split.
      * rewrite Hacc, <- app_assoc. reflexivity.
      * intro Hr. simpl. rewrite (Hok Hr).
        rewrite (analyze_whale_address self _ _ _ _ Ea). reflexivity.
    + rewrite (analyze_whale_raises self _ _ _ _ Ea) in H. simpl in H.
      injection H as <- <- <-. exists []. split; [now rewrite app_nil_r|].
      discriminate.
Qed.

Lemma compare_whales_result (addresses : list string) (w w' : W)
    (out : list WhaleMetrics) :
  compare_whales self addresses w = (Ok out, w') ->
  exists ms, map address ms = addresses /\ out = sort_desc eth_balance ms.
Proof.
  unfold compare_whales, bind, with_locals, ret.
  destruct (compare_whales_loop self addresses ([], w)) as [[[]|e] [acc' w1]] eqn:E;
    [|discriminate].
  intro H. injection H as <- <-.
  destruct (compare_whales_loop_run _ _ _ _ _ _ E) as [ms [Hacc Hok]].
  simpl in Hacc. subst acc'. exists ms. split; [apply Hok|]; reflexivity.
Qed.

Lemma compare_whales_propagates (a : string) (rest : list string)
    (w w1 : W) (e : pyexc) :
  analyze_whale self a w = (Raise e, w1) ->
  compare_whales self (a :: rest) w = (Raise PlainException, w1).
Proof.
  intro H. unfold compare_whales, bind, with_locals.
  rewrite compare_whales_loop_cons, H.
  rewrite (analyze_whale_raises self _ _ _ _ H). reflexivity.
Qed.

End CompareWhales.

(** C8: whatever order the addresses are given in, the list
    [compare_whales] returns is in descending order of [eth_balance], and
    results with equal balances keep the order their addresses have in
    the input: the returned list is a rearrangement of the metrics taken in
    input order in which, for every balance, the results with that balance
    appear in the same order. *)
Theorem compare_whales_sorted_stable :
  forall (W : Type) (self : Detector W) (addresses addresses' : list string)
         (w w' : W) (out : list WhaleMetrics),
    Permutation addresses addresses' ->
    compare_whales self addresses' w = (Ok out, w') ->
    descending eth_balance out /\
    exists ms : list WhaleMetrics,
      map address ms = addresses' /\
      Permutation out ms /\
      forall k : Q, with_key eth_balance k out = with_key eth_balance k ms.
Proof.
  intros W self addresses addresses' w w' out _ H.
  destruct (compare_whales_result self _ _ _ _ H) as [ms [Hms ->]].
  split; [apply sort_desc_descending|].
  exists ms. split; [exact Hms|]. split.
  - apply sort_desc_Permutation.
  - intro k. apply sort_desc_stable.
Qed.

Lemma compare_whales_sorted_stable_witness :
  exists out : list WhaleMetrics,
    compare_whales sample_detector ["0xbob"; "0xalice"; "0xcarol"]%string 0%nat
    = (Ok out, 6%nat) /\
    map address out = ["0xalice"; "0xbob"; "0xcarol"]%string /\
    descending eth_balance out /\
    exists ms : list WhaleMetrics,
      map address ms = ["0xbob"; "0xalice"; "0xcarol"]%string /\
      Permutation out ms /\
      forall k : Q, with_key eth_balance k out = with_key eth_balance k ms.
Proof.
  eexists. split; [reflexivity|]. split; [reflexivity|].
  apply (compare_whales_sorted_stable nat sample_detector
           ["0xcarol"; "0xbob"; "0xalice"]%string
           ["0xbob"; "0xalice"; "0xcarol"]%string 0%nat 6%nat).
  - apply perm_trans with (["0xbob"; "0xcarol"; "0xalice"]%string).
    + apply perm_swap.
    + apply perm_skip. apply perm_swap.
  - reflexivity.
Defined.

(** C10: the list [compare_whales] returns is no longer than the input,
    every returned record carries one of the input addresses, and no
    address occurs in more records than it occurs in the input. *)
Theorem compare_whales_within_input :
  forall (W : Type) (self : Detector W) (addresses : list string)
         (w w' : W) (out : list WhaleMetrics),
    compare_whales self addresses w = (Ok out, w') ->
    (List.length out <= List.length addresses)%nat /\
    (forall m, In m out -> In (address m) addresses) /\
    (forall a : string,
        (count_occ string_dec (map address out) a
         <= count_occ string_dec addresses a)%nat).
Proof.
  intros W self addresses w w' out H.
  destruct (compare_whales_result self _ _ _ _ H) as [ms [Hms ->]].
  assert (Hp : Permutation (map address (sort_desc eth_balance ms)) addresses).
  { rewrite <- Hms. apply Permutation_map. apply sort_desc_Permutation. }
  split; [|split].
  - rewrite <- (Permutation_length Hp), length_map. apply Nat.le_refl.
  - intros m Hm. apply (Permutation_in _ Hp). apply in_map. exact Hm.
  - intro a. rewrite (Permutation_count_occ string_dec) in Hp.
    rewrite (Hp a). apply Nat.le_refl.
Qed.

Lemma compare_whales_within_input_witness :
  exists out : list WhaleMetrics,
    compare_whales sample_detector ["0xbob"; "0xalice"; "0xbob"]%string 0%nat
    = (Ok out, 6%nat) /\
    (List.length out <= 3)%nat /\
    (forall m, In m out -> In (address m) ["0xbob"; "0xalice"; "0xbob"]%string) /\
    (forall a : string,
        (count_occ string_dec (map address out) a
         <= count_occ string_dec ["0xbob"; "0xalice"; "0xbob"]%string a)%nat).
Proof.
  eexists. split; [reflexivity|].
  apply (compare_whales_within_input nat sample_detector
           ["0xbob"; "0xalice"; "0xbob"]%string 0%nat 6%nat).
  reflexivity.
Defined.

(** C5 (what the code does instead): the explorer fails for the first of
    two addresses and would answer for the second; [analyze_whale] turns
    the failure into a plain [Exception], which the handler of
    [compare_whales] does not name, so the whole call raises and nothing is
    returned for the second address. *)
Theorem compare_whales_aborts_on_failure :
  get_balance sample_detector "0xdown" 0%nat = (Raise PlainException, 1%nat) /\
  (exists m, analyze_whale sample_detector "0xalice" 1%nat = (Ok m, 3%nat)) /\
  caught_batch PlainException = false /\
  compare_whales sample_detector ["0xdown"; "0xalice"]%string 0%nat
  = (Raise PlainException, 1%nat).
Proof.
  split; [reflexivity|]. split; [eexists; reflexivity|].
  split; reflexivity.
Qed.

(** ** Invariants of loops *)

Section Preserves.

Context {St : Type}.
Variable I : St -> Prop.

Lemma preserves_ret {A : Type} (a : A) : preserves I (ret a).
Proof. intros s Hs. exact Hs. Qed.

Lemma preserves_raise {A : Type} (e : pyexc) : preserves I (@raise St A e).
Proof. intros s Hs. exact Hs. Qed.

Lemma preserves_bind {A B : Type} (m : M St A) (f : A -> M St B) :
  preserves I m ->
  (forall a, returns m a -> preserves I (f a)) ->
  preserves I (bind m f).
Proof.
  intros Hm Hf s Hs. unfold bind.
  specialize (Hm s Hs).
  destruct (m s) as [[a|e] s'] eqn:E; simpl in Hm.
  - apply (Hf a); [exists s, s'; exact E|exact Hm].
  - exact Hm.
Qed.

Lemma preserves_try {A : Type} (m : M St A) (caught : pyexc -> bool)
    (handler : pyexc -> M St A) :
  preserves I m ->
  (forall e, preserves I (handler e)) ->
  preserves I (try_except m caught handler).
Proof.
  intros Hm Hh s Hs. unfold try_except.
  specialize (Hm s Hs).
  destruct (m s) as [[a|e] s']; simpl in Hm; [exact Hm|].
  destruct (caught e); [apply Hh; exact Hm|exact Hm].
Qed.

Lemma preserves_for_each {A : Type} (l : list A) (body : A -> M St unit) :
  (forall a, In a l -> preserves I (body a)) ->
  preserves I (for_each l body).
Proof.
  induction l as [|a l IH]; intro Hb; simpl.
  - apply preserves_ret.
  - apply preserves_bind.
    + apply Hb. left. reflexivity.
    + intros _ _. apply IH. intros b Hin. apply Hb. right. exact Hin.
Qed.

End Preserves.

Lemma preserves_io {L W A : Type} (P : L -> Prop) (m : M W A) :
  preserves (on_locals P) (@io L W A m).
Proof.
  intros [l w] Hs. unfold io, on_locals in *. simpl in *.
  destruct (m w) as [r w']. exact Hs.
Qed.

Lemma preserves_update {L W : Type} (P : L -> Prop) (f : L -> L) :
  (forall l, P l -> P (f l)) -> preserves (on_locals P) (@update L W f).
Proof.
  intros Hf [l w] Hs. unfold update, on_locals in *. simpl in *.
  apply Hf. exact Hs.
Qed.

Lemma returns_io {L W A : Type} (m : M W A) (a : A) :
  returns (@io L W A m) a -> returns m a.
Proof.
  intros [[l w] [[l' w'] H]]. unfold io in H. simpl in H.
  destruct (m w) as [r w''] eqn:E. injection H as -> _ ->.
  exists w, w'. exact E.
Qed.

Lemma with_locals_preserved {L W : Type} (P : L -> Prop) (l0 : L)
    (m : M (L * W) unit) (w w' : W) (l : L) :
  preserves (on_locals P) m -> P l0 ->
  with_locals l0 m w = (Ok l, w') -> P l.
Proof.
  intros Hm H0. unfold with_locals.
  specialize (Hm (l0, w) H0).
  destruct (m (l0, w)) as [[[]|e] [l1 w1]]; [|discriminate].
  intro H. injection H as <- _. exact Hm.
Qed.

(** ** Discovery routines *)

Section Discovery.

Context {W : Type}.
Variable self : Detector W.

Lemma discover_whale_movements_result (min_value : Q) (w w' : W)
    (out : list Movement) :
  discover_whale_movements self min_value w = (Ok out, w') ->
  exists l, out = firstn 50 (sort_desc mv_value_eth l).
Proof.
  unfold discover_whale_movements, bind, ret.
  destruct (with_locals [] _ w) as [[l|e] w1]; [|discriminate].
  intro H. injection H as <- _. exists l. reflexivity.
Qed.

Lemma discover_top_whales_result (min_balance : Q) (w w' : W)
    (out : list WhaleInfo) :
  discover_top_whales self min_balance w = (Ok out, w') ->
  exists l, out = firstn 20 (sort_desc wi_eth_balance l).
Proof.
  unfold discover_top_whales, bind, ret.
  destruct (with_locals [] _ w) as [[d|e] w1]; [|discriminate].
  destruct (with_locals [] _ w1) as [[l|e] w2]; [|discriminate].
  intro H. injection H as <- _. exists l. reflexivity.
Qed.

Lemma track_exchange_whales_result (min_amount : Q) (w w' : W)
    (out : list ExchangeMovement) :
  track_exchange_whales self min_amount w = (Ok out, w') ->
  exists l,
    with_locals [] (track_exchange_whales_loop self min_amount) w = (Ok l, w') /\
    out = firstn 30 (sort_desc em_value_eth l).
Proof.
  unfold track_exchange_whales, bind, ret.
  destruct (with_locals [] _ w) as [[l|e] w1]; [|discriminate].
  intro H. injection H as <- <-. exists l. split; reflexivity.
Qed.

End Discovery.

(** C9: whenever they return, [discover_whale_movements] gives at most 50
    items in descending order of [value_eth], [track_exchange_whales] at
    most 30 items in descending order of [value_eth], and
    [discover_top_whales] at most 20 items in descending order of
    [eth_balance]. *)
Theorem discovery_results_bounded_sorted :
  forall (W : Type) (self : Detector W) (w w' : W),
    (forall (min_value : Q) (out : list Movement),
        discover_whale_movements self min_value w = (Ok out, w') ->
        (List.length out <= 50)%nat /\ descending mv_value_eth out) /\
    (forall (min_amount : Q) (out : list ExchangeMovement),
        track_exchange_whales self min_amount w = (Ok out, w') ->
        (List.length out <= 30)%nat /\ descending em_value_eth out) /\
    (forall (min_balance : Q) (out : list WhaleInfo),
        discover_top_whales self min_balance w = (Ok out, w') ->
        (List.length out <= 20)%nat /\ descending wi_eth_balance out).
Proof.
  intros W self w w'. split; [|split].
  - intros min_value out H.
    destruct (discover_whale_movements_result self _ _ _ _ H) as [l ->].
    apply top_sorted.
  - intros min_amount out H.
    destruct (track_exchange_whales_result self _ _ _ _ H) as [l [_ ->]].
    apply top_sorted.
  - intros min_balance out H.
    destruct (discover_top_whales_result self _ _ _ _ H) as [l ->].
    apply top_sorted.
Qed.

(** ** Exchange flows *)


Section TrackExchangeWhales.

Context {W : Type}.
Variable self : Detector W.
Variable min_amount : Q.



End TrackExchangeWhales.


(** ** The theorems at concrete inputs *)

Lemma classify_whale_thresholds_witness :
  -5 <= 0 /\ classify_whale (-5) = SHRIMP.
Proof.
  assert (H : -5 <= 0) by discriminate.
  split; [exact H|].
  apply (proj1 (proj2 classify_whale_thresholds) (-5) H).
Defined.



Lemma discovery_results_bounded_sorted_witness :
  exists out : list Movement,
    discover_whale_movements sample_detector 100 0%nat = (Ok out, 18%nat) /\
    (List.length out <= 50)%nat /\ descending mv_value_eth out.
Proof.
  eexists. split; [vm_compute; reflexivity|].
  apply (proj1 (discovery_results_bounded_sorted nat sample_detector 0%nat 18%nat) 100).
  vm_compute. reflexivity.
Defined.

(** ** Further properties of the scores and thresholds *)

(** X1: [classify_whale] is monotone: a larger balance never gets a lower
    class. *)
Theorem classify_whale_monotone :
  forall b b' : Q,
    b <= b' ->
    (WhaleClass_rank (classify_whale b) <= WhaleClass_rank (classify_whale b'))%nat.
Proof.
  intros b b' Hle. unfold classify_whale. qcases; simpl; try lia; exfalso; lra.
Qed.

Lemma classify_whale_monotone_witness :
  (WhaleClass_rank (classify_whale 99) <= WhaleClass_rank (classify_whale 100))%nat.
Proof.
  apply (classify_whale_monotone 99 100). discriminate.
Defined.



(** X3: the contributions to the risk score add up to at most 95 and to
    at least -20, so the score never exceeds 95 and the upper clamp
    [min(100.0, ...)] is never active; the score is [max(0, total)]. *)
Theorem risk_score_at_most_95 :
  forall (W : Type) (self : Detector W) (t : Z) (addr : string)
         (txs : list Transaction) (balance : Q),
    let total := Zsum (risk_factors self t addr txs balance) in
    (-20 <= total <= 95)%Z /\
    _calculate_risk_score self t addr txs balance == Qmax 0 (inject_Z total) /\
    _calculate_risk_score self t addr txs balance <= 95.
Proof.
  intros W self t addr txs balance total.
  assert (Hb : (-20 <= total <= 95)%Z).
  { unfold total, risk_factors. rewrite !Zsum_app.
    destruct (Qgt_bool balance 1000), (is_known_whale self addr);
      destruct txs as [|tx0 r];
      try destruct (Qgt_bool (large_tx_ratio (tx0 :: r)) (1 # 2));
      try destruct (timedelta_days t (tx_timeStamp (last r tx0)) <? 30)%Z;
      vm_compute; split; discriminate. }
  assert (Hq : inject_Z total <= 95).
  { change 95 with (inject_Z 95). rewrite <- Zle_Qle. lia. }
  assert (Hs : _calculate_risk_score self t addr txs balance
               == Qmax 0 (inject_Z total)).
  { unfold _calculate_risk_score, clamp_risk. fold total.
    rewrite (Q.min_r 100 (inject_Z total)); [reflexivity|lra]. }
  split; [exact Hb|]. split; [exact Hs|].
  rewrite Hs. apply Q.max_lub; lra.
Qed.

(** X4: with no transactions only the balance and the known-whale table
    count: the score is 30 for an unknown address holding more than 1000,
    10 for a known one holding more than 1000, and 0 otherwise (the -20 of
    a known address is clamped away). *)
Theorem risk_score_without_transactions :
  forall (W : Type) (self : Detector W) (t : Z) (addr : string) (balance : Q),
    (1000 < balance -> is_known_whale self addr = false ->
     _calculate_risk_score self t addr [] balance == 30) /\
    (1000 < balance -> is_known_whale self addr = true ->
     _calculate_risk_score self t addr [] balance == 10) /\
    (balance <= 1000 ->
     _calculate_risk_score self t addr [] balance == 0).
Proof.
  intros W self t addr balance.
  unfold _calculate_risk_score, risk_factors.
  split; [|split].
  - intros Hb Hk. apply Qgt_bool_true in Hb. rewrite Hb, Hk. reflexivity.
  - intros Hb Hk. apply Qgt_bool_true in Hb. rewrite Hb, Hk. reflexivity.
  - intros Hb.
    assert (E : Qgt_bool balance 1000 = false)
      by (apply Qgt_bool_false; lra).
    rewrite E. destruct (is_known_whale self addr); reflexivity.
Qed.

Lemma risk_score_without_transactions_witness :
  _calculate_risk_score sample_detector 0
    "0xDE0B295669A9FD93D5F28D9EC85E40F4CB697BAE" [] 2000 == 10.
Proof.
  apply (proj1 (proj2 (risk_score_without_transactions nat sample_detector 0
                         "0xDE0B295669A9FD93D5F28D9EC85E40F4CB697BAE" 2000))).
  - reflexivity.
  - reflexivity.
Defined.

(** ** Further properties of single-address analysis *)







Lemma nodup_repeat (x : string) (n : nat) :
  nodup string_dec (repeat x (S n)) = [x].
Proof.
  induction n as [|n IH].
  - reflexivity.
  - change (repeat x (S (S n))) with (x :: repeat x (S n)).
    cbn [nodup]. destruct (in_dec string_dec x (repeat x (S n))) as [_|Hn].
    + exact IH.
    + exfalso. apply Hn. left. reflexivity.
Qed.

(** X7: the token diversity never exceeds the number of transfers, is 0
    only for no transfers at all, and transfers that carry no
    [contractAddress] still count: a non-empty list of such transfers has
    diversity 1 (they all fall on the empty string). *)
Theorem count_unique_tokens_bounds :
  forall trs : list TokenTransfer,
    (count_unique_tokens trs <= List.length trs)%nat /\
    (count_unique_tokens trs = 0%nat <-> trs = []) /\
    (trs <> [] ->
     (forall tr, In tr trs -> contractAddress tr = None) ->
     count_unique_tokens trs = 1%nat).
Proof.
  intro trs. unfold count_unique_tokens.
  set (f := fun tr => match contractAddress tr with
                      | Some a => a
                      | None => EmptyString
                      end).
  split; [|split].
  - eapply Nat.le_trans; [apply NoDup_incl_length|].
    + apply NoDup_nodup.
    + intros x Hx. apply nodup_In in Hx. exact Hx.
    + rewrite length_map. lia.
  - split.
    + intro H. destruct trs as [|tr r]; [reflexivity|]. exfalso.
      assert (Hin : In (f tr) (nodup string_dec (map f (tr :: r))))
        by (apply nodup_In; left; reflexivity).
      destruct (nodup string_dec (map f (tr :: r))); [exact Hin|discriminate].
    + intros ->. reflexivity.
  - intros Hne Hall.
    assert (Hrep : map f trs = repeat EmptyString (List.length trs)).
    { clear Hne. induction trs as [|tr r IH]; [reflexivity|].
      cbn [map List.length repeat].
      rewrite IH by (intros x Hx; apply Hall; right; exact Hx).
      unfold f at 1. rewrite (Hall tr (or_introl eq_refl)). reflexivity. }
    rewrite Hrep. destruct trs as [|tr r]; [congruence|].
    cbn [List.length]. rewrite nodup_repeat. reflexivity.
Qed.

Lemma count_unique_tokens_bounds_witness :
  count_unique_tokens [ {| contractAddress := None |};
                        {| contractAddress := None |} ] = 1%nat.
Proof.
  apply (proj2 (proj2 (count_unique_tokens_bounds
                         [ {| contractAddress := None |};
                           {| contractAddress := None |} ]))).
  - discriminate.
  - intros tr [<-|[<-|[]]]; reflexivity.
Defined.

(** ** Further properties of the lookups *)

(** X8: [_get_whale_class_cached] never lets an [httpx.HTTPError] or a
    [ValueError] out: it answers [None] exactly when the balance fetch
    raised one of the two, answers the class of the balance when the fetch
    succeeded, and any exception that does leave it is of another class. *)
Theorem get_whale_class_cached_outcome :
  forall (W : Type) (self : Detector W) (addr : string) (w w' : W),
    (forall e, _get_whale_class_cached self addr w = (Raise e, w') ->
               get_balance self addr w = (Raise e, w') /\
               e <> HTTPError /\ e <> ValueError) /\
    (_get_whale_class_cached self addr w = (Ok None, w') <->
     get_balance self addr w = (Raise HTTPError, w') \/
     get_balance self addr w = (Raise ValueError, w')) /\
    (forall c, _get_whale_class_cached self addr w = (Ok (Some c), w') <->
               exists b, get_balance self addr w = (Ok b, w') /\
                         c = classify_whale b).
Proof.
  intros W self addr w w'.
  unfold _get_whale_class_cached, try_except, bind, ret.
  destruct (get_balance self addr w) as [[b|e] w1].
  - split; [intros e H; discriminate|]. split.
    + split; [intro H; discriminate|intros [H|H]; discriminate].
    + intro c. split.
      * intro H. injection H as <- <-. exists b. split; reflexivity.
      * intros [b' [H ->]]. injection H as <- <-. reflexivity.
  - destruct e; simpl; (split; [|split]).
    all: try (intros e H; try discriminate; injection H as <- <-;
              repeat split; discriminate).
    all: try (intro c; split; [intro H; discriminate|intros [b' [H _]]; discriminate]).
    all: split; intro H.
    all: try (injection H as <-; auto).
    all: try discriminate.
    all: try (destruct H as [H|H]; try discriminate; injection H as <-; reflexivity).
    all: destruct H as [H|H]; discriminate.
Qed.

Lemma lower_ascii_idempotent (c : ascii) :
  lower_ascii (lower_ascii c) = lower_ascii c.
Proof.
  destruct c as [[] [] [] [] [] [] [] []]; reflexivity.
Qed.

Lemma lower_idempotent (s : string) : lower (lower s) = lower s.
Proof.
  induction s as [|c s IH]; simpl.
  - reflexivity.
  - rewrite lower_ascii_idempotent, IH. reflexivity.
Qed.

Lemma dict_get_In (d : dict) (k v : string) :
  dict_get d k = Some v -> In k (keys d).
Proof.
  induction d as [|[k' v'] d IH]; simpl; [discriminate|].
  destruct (String.eqb_spec k' k) as [->|Hne].
  - intros _. left. reflexivity.
  - intro H. right. apply IH. exact H.
Qed.

Lemma In_dict_get (d : dict) (k : string) :
  In k (keys d) -> exists v, dict_get d k = Some v.
Proof.
  induction d as [|[k' v'] d IH]; simpl; [intros []|].
  destruct (String.eqb_spec k' k) as [->|Hne].
  - intros _. exists v'. reflexivity.
  - intros [H|H]; [congruence|apply IH; exact H].
Qed.

(** X9: the label lookup and the known-whale test of the risk score agree
    in one direction only: an address that has a label always counts as a
    known whale; the converse needs the table's keys to be lower-case,
    because [get_whale_label] lowers the address but not the keys. Both
    lookups ignore the letter case of the address. *)
Theorem whale_label_and_known_whale :
  forall (W : Type) (self : Detector W) (a : string),
    ((exists l, get_whale_label self a = Some l) -> is_known_whale self a = true) /\
    (lowercase_keys (known_whales self) ->
     is_known_whale self a = true -> exists l, get_whale_label self a = Some l) /\
    (forall a', lower a = lower a' ->
                get_whale_label self a = get_whale_label self a' /\
                is_exchange_address self a = is_exchange_address self a' /\
                is_known_whale self a = is_known_whale self a').
Proof.
  intros W self a. split; [|split].
  - intros [l Hl]. unfold get_whale_label in Hl.
    apply is_known_whale_spec. exists (lower a). split.
    + exact (dict_get_In _ _ _ Hl).
    + apply lower_idempotent.
  - intros Hlow Hk. apply is_known_whale_spec in Hk.
    destruct Hk as [k [Hin Heq]].
    unfold get_whale_label. rewrite <- Heq, (Hlow k Hin).
    apply In_dict_get. exact Hin.
  - intros a' Heq.
    unfold get_whale_label, is_exchange_address, is_known_whale.
    rewrite Heq. repeat split.
Qed.

Lemma whale_label_and_known_whale_witness :
  is_known_whale sample_detector "0xDE0B295669A9FD93D5F28D9EC85E40F4CB697BAE" = true.
Proof.
  apply (proj1 (whale_label_and_known_whale nat sample_detector
                  "0xDE0B295669A9FD93D5F28D9EC85E40F4CB697BAE")).
  exists "Ethereum Foundation"%string. reflexivity.
Defined.

(** ** Validators and the chain tables *)

Lemma is_hex_digit_lower (c : ascii) :
  is_hex_digit c = true -> is_hex_digit (lower_ascii c) = true.
Proof.
  destruct c as [[] [] [] [] [] [] [] []]; intro H;
    try reflexivity; discriminate H.
Qed.

Lemma hex_run_lower (n : nat) (s : string) :
  hex_run n s = true -> hex_run n (lower s) = true.
Proof.
  revert s. induction n as [|n IH]; intros s H.
  - destruct s as [|c [|c' s]]; simpl in *; try discriminate; [reflexivity|].
    apply Ascii.eqb_eq in H. subst c. reflexivity.
  - destruct s as [|c s]; simpl in *; [discriminate|].
    apply andb_true_iff in H. destruct H as [Hc Hs].
    rewrite (is_hex_digit_lower c Hc), (IH s Hs). reflexivity.
Qed.

Lemma hex_run_length (n : nat) (s : string) :
  hex_run n s = true -> String.length s = n \/ String.length s = S n.
Proof.
  revert s. induction n as [|n IH]; intros s H.
  - destruct s as [|c [|c' s]]; simpl in *; try discriminate; auto.
  - destruct s as [|c s]; simpl in *; [discriminate|].
    apply andb_true_iff in H. destruct H as [_ Hs].
    destruct (IH s Hs) as [E|E]; rewrite E; auto.
Qed.

Lemma hex_run_newline (n : nat) (s : string) :
  hex_run n s = true -> String.length s = S n ->
  exists s', s = (s' ++ String "010"%char EmptyString)%string /\
             hex_run n s' = true.
Proof.
  revert s. induction n as [|n IH]; intros s H L.
  - destruct s as [|c [|c' s]]; simpl in *; try discriminate.
    apply Ascii.eqb_eq in H. subst c. exists EmptyString. split; reflexivity.
  - destruct s as [|c s]; simpl in *; [discriminate|].
    apply andb_true_iff in H. destruct H as [Hc Hs].
    injection L as L.
    destruct (IH s Hs L) as [s' [-> Hs']].
    exists (String c s'). split; [reflexivity|].
    simpl. rewrite Hc, Hs'. reflexivity.
Qed.

Lemma address_re_match_lower (a : string) :
  address_re_match a = true -> address_re_match (lower a) = true.
Proof.
  destruct a as [|c0 [|c1 r]]; try discriminate.
  unfold address_re_match. cbn [lower].
  intro H. apply andb_true_iff in H. destruct H as [H Hr].
  apply andb_true_iff in H. destruct H as [H0 H1].
  apply Ascii.eqb_eq in H0. apply Ascii.eqb_eq in H1. subst c0 c1.
  rewrite (hex_run_lower 40 r Hr). reflexivity.
Qed.

(** X10: [validate_address] normalises: an accepted address comes back in
    lower case, validating the result again returns it unchanged, and the
    only exception is [ValueError]. An accepted string is "0x" and 40 hex
    digits, 42 characters, or those followed by one newline, 43
    characters, because [$] in the pattern also matches before a final
    newline. *)
Theorem validate_address_normalises :
  (forall a r : string,
      validate_address a = Ok r ->
      r = lower a /\ lower r = r /\ validate_address r = Ok r /\
      (String.length a = 42%nat \/ String.length a = 43%nat)) /\
  (forall (a : string) (e : pyexc),
      validate_address a = Raise e -> e = ValueError) /\
  (forall a r : string,
      validate_address a = Ok r -> String.length a = 43%nat ->
      exists b, a = (b ++ String "010"%char EmptyString)%string /\
                validate_address b = Ok (lower b)) /\
  validate_address
    (String.append "0xDE0B295669A9FD93D5F28D9EC85E40F4CB697BAE"
                   (String "010"%char EmptyString))
  = Ok (String.append "0xde0b295669a9fd93d5f28d9ec85e40f4cb697bae"
                      (String "010"%char EmptyString)).
Proof.
  split; [|split; [|split]].
  - intros a r. unfold validate_address.
    destruct (address_re_match a) eqn:E; [|discriminate].
    intro H. injection H as <-.
    split; [reflexivity|]. split; [apply lower_idempotent|].
    split.
    + rewrite (address_re_match_lower a E), lower_idempotent. reflexivity.
    + destruct a as [|c0 [|c1 s]]; try discriminate.
      unfold address_re_match in E.
      apply andb_true_iff in E. destruct E as [_ Hs].
      destruct (hex_run_length 40 s Hs) as [L|L];
        cbn [String.length]; rewrite L; auto.
  - intros a e. unfold validate_address.
    destruct (address_re_match a); [discriminate|].
    intro H. injection H as <-. reflexivity.
  - intros a r. unfold validate_address.
    destruct (address_re_match a) eqn:E; [|discriminate].
    intros _ L.
    destruct a as [|c0 [|c1 s]]; try discriminate.
    unfold address_re_match in E.
    apply andb_true_iff in E. destruct E as [E01 Hs].
    cbn [String.length] in L. injection L as L.
    destruct (hex_run_newline 40 s Hs L) as [s' [-> Hs']].
    exists (String c0 (String c1 s')). split; [reflexivity|].
    unfold address_re_match. rewrite E01, Hs'. reflexivity.
  - reflexivity.
Qed.

Lemma validate_address_normalises_witness :
  validate_address "0xde0b295669a9fd93d5f28d9ec85e40f4cb697bae"
  = Ok "0xde0b295669a9fd93d5f28d9ec85e40f4cb697bae"%string.
Proof.
  apply (proj1 validate_address_normalises
           "0xDE0B295669A9FD93D5F28D9EC85E40F4CB697BAE"%string
           "0xde0b295669a9fd93d5f28d9ec85e40f4cb697bae"%string).
  reflexivity.
Defined.

Lemma table_get_cases {A : Type} (t : list (string * A)) (k : string) (v : A) :
  table_get t k = Some v -> In (k, v) t.
Proof.
  induction t as [|[k' v'] t IH]; simpl; [discriminate|].
  destruct (String.eqb_spec k' k) as [->|Hne].
  - intro H. injection H as <-. left. reflexivity.
  - intro H. right. apply IH. exact H.
Qed.

Lemma NoDup_of_nodup {A : Type} (dec : forall x y : A, {x = y} + {x <> y})
    (l : list A) :
  nodup dec l = l -> NoDup l.
Proof. intro H. rewrite <- H. apply NoDup_nodup. Qed.

Lemma shipped_table_checked (d : dict) :
  forallb (fun k => match validate_address k with
                    | Ok r => String.eqb r k
                    | Raise _ => false
                    end) (keys d) = true ->
  lowercase_keys d /\ forall k, In k (keys d) -> validate_address k = Ok k.
Proof.
  intro H. rewrite forallb_forall in H.
  assert (Hv : forall k, In k (keys d) -> validate_address k = Ok k).
  { intros k Hk. specialize (H k Hk).
    destruct (validate_address k) as [r|e]; [|discriminate].
    apply String.eqb_eq in H. congruence. }
  split; [|exact Hv].
  intros k Hk. specialize (Hv k Hk). unfold validate_address in Hv.
  destruct (address_re_match k); [|discriminate]. congruence.
Qed.

(** X11: a detector built by [__init__], for any chain name, has tables
    whose keys are all normalised addresses ([validate_address] returns
    each key unchanged) and pairwise distinct; so for such a detector an
    address counts as a known whale in the risk score exactly when
    [get_whale_label] finds a label for it. An unknown chain gives empty
    tables. *)
Theorem init_tables_normalised :
  forall (W : Type) (chain : string)
         (gb : string -> M W Q)
         (gt : string -> nat -> M W (list Transaction))
         (gtt : string -> nat -> M W (list TokenTransfer))
         (clk : W -> Z) (slp : Q -> W -> W),
    let self := WhaleDetector_init chain gb gt gtt clk slp in
    (forall k, In k (keys (known_whales self) ++ keys (exchange_addresses self)) ->
               validate_address k = Ok k) /\
    NoDup (keys (known_whales self)) /\
    NoDup (keys (exchange_addresses self)) /\
    (forall a, is_known_whale self a = true <->
               exists l, get_whale_label self a = Some l) /\
    (forall e, get_chain_config chain = Raise e ->
               known_whales self = [] /\ exchange_addresses self = []).
Proof.
  intros W chain gb gt gtt clk slp self.
  assert (Hw : known_whales self = ethereum_known_whales \/
               known_whales self = bsc_known_whales \/
               known_whales self = []).
  { unfold self, WhaleDetector_init, get_known_whales, KNOWN_WHALES.
    cbn [known_whales table_get].
    destruct (String.eqb "ethereum" (lower (lower chain))); [auto|].
    destruct (String.eqb "bsc" (lower (lower chain))); auto. }
  assert (He : exchange_addresses self = ethereum_exchange_addresses \/
               exchange_addresses self = bsc_exchange_addresses \/
               exchange_addresses self = []).
  { unfold self, WhaleDetector_init, get_exchange_addresses, EXCHANGE_ADDRESSES.
    cbn [exchange_addresses table_get].
    destruct (String.eqb "ethereum" (lower (lower chain))); [auto|].
    destruct (String.eqb "bsc" (lower (lower chain))); auto. }
  assert (Cw : lowercase_keys (known_whales self) /\
               forall k, In k (keys (known_whales self)) -> validate_address k = Ok k).
  { apply shipped_table_checked.
    destruct Hw as [-> | [-> | ->]]; vm_compute; reflexivity. }
  assert (Ce : lowercase_keys (exchange_addresses self) /\
               forall k, In k (keys (exchange_addresses self)) ->
                         validate_address k = Ok k).
  { apply shipped_table_checked.
    destruct He as [-> | [-> | ->]]; vm_compute; reflexivity. }
  split; [|split; [|split; [|split]]].
  - intros k Hk. apply in_app_or in Hk.
    destruct Hk as [Hk|Hk]; [apply Cw|apply Ce]; exact Hk.
  - apply (NoDup_of_nodup string_dec).
    destruct Hw as [-> | [-> | ->]]; vm_compute; reflexivity.
  - apply (NoDup_of_nodup string_dec).
    destruct He as [-> | [-> | ->]]; vm_compute; reflexivity.
  - intro a. split.
    + apply (whale_label_and_known_whale W self a). apply Cw.
    + apply (whale_label_and_known_whale W self a).
  - intros e Hc. unfold get_chain_config, CHAIN_REGISTRY in Hc.
    cbn [table_get] in Hc.
    unfold self, WhaleDetector_init, get_known_whales, get_exchange_addresses,
      KNOWN_WHALES, EXCHANGE_ADDRESSES.
    cbn [known_whales exchange_addresses table_get].
    rewrite lower_idempotent.
    destruct (String.eqb "ethereum" (lower chain)); [discriminate|].
    destruct (String.eqb "bsc" (lower chain)); [discriminate|].
    split; reflexivity.
Qed.

Lemma existsb_eqb_In (k : string) (l : list string) :
  existsb (String.eqb k) l = true <-> In k l.
Proof.
  rewrite existsb_exists. split.
  - intros [x [Hx He]]. apply String.eqb_eq in He. subst x. exact Hx.
  - intro H. exists k. split; [exact H|apply String.eqb_refl].
Qed.

(** X12: [validate_chain] answers the lower-cased name, which is then one
    of the supported names, and raises [ValueError] exactly when the
    lower-cased name is not supported. Against the registry's own list, it
    accepts a chain exactly when [get_chain_config] finds a configuration,
    and the validated name selects the same configuration and the same
    tables as the name given. *)
Theorem validate_chain_registry :
  forall chain : string,
    (forall supported c',
        validate_chain chain supported = Ok c' ->
        c' = lower chain /\ In c' supported) /\
    (forall supported e,
        validate_chain chain supported = Raise e ->
        e = ValueError /\ ~ In (lower chain) supported) /\
    ((exists c', validate_chain chain get_supported_chains = Ok c') <->
     (exists cfg, get_chain_config chain = Ok cfg)) /\
    (forall c',
        validate_chain chain get_supported_chains = Ok c' ->
        get_chain_config c' = get_chain_config chain /\
        get_known_whales c' = get_known_whales chain /\
        get_exchange_addresses c' = get_exchange_addresses chain).
Proof.
  intro chain. split; [|split; [|split]].
  - intros supported c'. unfold validate_chain.
    destruct (existsb (String.eqb (lower chain)) supported) eqn:E; [|discriminate].
    intro H. injection H as <-. split; [reflexivity|].
    apply existsb_eqb_In. exact E.
  - intros supported e. unfold validate_chain.
    destruct (existsb (String.eqb (lower chain)) supported) eqn:E; [discriminate|].
    intro H. injection H as <-. split; [reflexivity|].
    intro Hin. apply existsb_eqb_In in Hin. congruence.
  - unfold validate_chain, get_chain_config, get_supported_chains, CHAIN_REGISTRY.
    cbn [map fst existsb table_get].
    rewrite (String.eqb_sym (lower chain) "ethereum").
    rewrite (String.eqb_sym (lower chain) "bsc").
    destruct (String.eqb "ethereum" (lower chain)).
    + split; intros _; eexists; reflexivity.
    + destruct (String.eqb "bsc" (lower chain)).
      * split; intros _; eexists; reflexivity.
      * split; intros [x H]; discriminate H.
  - intros c'. unfold validate_chain.
    destruct (existsb (String.eqb (lower chain)) get_supported_chains);
      [|discriminate].
    intro H. injection H as <-.
    unfold get_chain_config, get_known_whales, get_exchange_addresses.
    rewrite lower_idempotent. repeat split.
Qed.

Lemma validate_chain_registry_witness :
  get_chain_config "ethereum" = get_chain_config "ETHEREUM".
Proof.
  apply (proj2 (proj2 (proj2 (validate_chain_registry "ETHEREUM"))) "ethereum"%string).
  reflexivity.
Defined.

(** ** Further properties of the batch routines *)

(** X13: [compare_whales] is all or nothing: when it returns, the returned
    records carry exactly the input addresses, one record per address; when
    it raises, the exception is a plain [Exception]; and for no addresses
    it returns the empty list without touching the explorer. *)
Theorem compare_whales_all_or_nothing :
  forall (W : Type) (self : Detector W) (addresses : list string) (w w' : W),
    (forall out, compare_whales self addresses w = (Ok out, w') ->
                 Permutation (map address out) addresses /\
                 List.length out = List.length addresses) /\
    (forall e, compare_whales self addresses w = (Raise e, w') ->
               e = PlainException) /\
    compare_whales self [] w = (Ok [], w).
Proof.
  intros W self addresses w w'. split; [|split].
  - intros out H.
    destruct (compare_whales_result self _ _ _ _ H) as [ms [Hms ->]].
    assert (Hp : Permutation (map address (sort_desc eth_balance ms)) addresses).
    { rewrite <- Hms. apply Permutation_map. apply sort_desc_Permutation. }
    split; [exact Hp|].
    rewrite <- (Permutation_length Hp), length_map. reflexivity.
  - intro e. unfold compare_whales, bind, with_locals, ret.
    destruct (compare_whales_loop self addresses ([], w)) as [[[]|e0] [acc w1]] eqn:E;
      [discriminate|].
    intro H. injection H as <- _.
    clear w'. revert E. generalize (@nil WhaleMetrics) as acc0. revert w.
    induction addresses as [|a rest IH]; intros w acc0 E.
    + unfold compare_whales_loop in E. simpl in E. discriminate E.
    + rewrite compare_whales_loop_cons in E.
      destruct (analyze_whale self a w) as [[m|e1] w2] eqn:Ea.
      * exact (IH _ _ E).
      * rewrite (analyze_whale_raises self _ _ _ _ Ea) in E. simpl in E.
        injection E as <- _ _. reflexivity.
  - reflexivity.
Qed.

Lemma compare_whales_all_or_nothing_witness :
  exists out : list WhaleMetrics,
    compare_whales sample_detector ["0xbob"; "0xalice"]%string 0%nat
    = (Ok out, 4%nat) /\
    Permutation (map address out) ["0xbob"; "0xalice"]%string /\
    List.length out = 2%nat.
Proof.
  eexists. split; [reflexivity|].
  apply (proj1 (compare_whales_all_or_nothing nat sample_detector
                  ["0xbob"; "0xalice"]%string 0%nat 4%nat)).
  reflexivity.
Defined.

Lemma returns_whale_class_cached {W : Type} (self : Detector W)
    (addr : string) (c : option WhaleClass) :
  returns (_get_whale_class_cached self addr) c ->
  class_string_of self addr (class_or_unknown c).
Proof.
  intros [w [w' H]].
  unfold _get_whale_class_cached, try_except, bind, ret in H.
  destruct (get_balance self addr w) as [[b|e] w1] eqn:E.
  - injection H as <- <-. right. exists b. split; [|reflexivity].
    exists w, w1. exact E.
  - destruct (caught_lookup e); [|discriminate].
    injection H as <- _. left. reflexivity.
Qed.

Lemma In_top_sorted {A : Type} (key : A -> Q) (n : nat) (l : list A) (x : A) :
  In x (firstn n (sort_desc key l)) -> In x l.
Proof.
  intro H. apply (Permutation_in _ (sort_desc_Permutation key l)).
  rewrite <- (firstn_skipn n (sort_desc key l)).
  apply in_or_app. left. exact H.
Qed.

Section DiscoverWhaleMovements.

Context {W : Type}.
Variable self : Detector W.
Variable min_value : Q.

Lemma discover_whale_movements_loop_invariant :
  preserves
    (on_locals (Forall (fun m => exists tx, movement_of self min_value m tx)))
    (discover_whale_movements_loop self min_value
       (keys (known_whales self) ++ keys (exchange_addresses self))).
Proof.
  unfold discover_whale_movements_loop.
  apply preserves_for_each. intros addr Haddr.
  apply preserves_try; [|intros _; apply preserves_ret].
  apply preserves_bind; [apply preserves_io|].
  intros txs Htxs. apply returns_io in Htxs.
  apply preserves_bind; [|intros _ _; apply preserves_io].
  apply preserves_for_each. intros tx Htx.
  destruct (Qle_bool min_value (tx_value_eth tx)) eqn:Ev;
    [|apply preserves_ret].
  apply Qle_bool_iff in Ev.
  apply preserves_bind; [apply preserves_io|].
  intros cf Hcf. apply returns_io in Hcf.
  apply preserves_bind; [apply preserves_io|].
  intros ct Hct. apply returns_io in Hct.
  apply preserves_update. intros l Hl.
  apply Forall_app. split; [exact Hl|].
  constructor; [|constructor].
  exists tx. unfold movement_of. cbn.
  split; [exists addr, txs; repeat split; assumption|].
  split; [exact Ev|].
  do 6 (split; [reflexivity|]).
  split; [apply returns_whale_class_cached; exact Hcf|].
  split; [apply returns_whale_class_cached; exact Hct|].
  repeat split.
Qed.

Lemma discover_whale_movements_locals (w w' : W) (out : list Movement) :
  discover_whale_movements self min_value w = (Ok out, w') ->
  exists l,
    with_locals [] (discover_whale_movements_loop self min_value
                      (keys (known_whales self) ++ keys (exchange_addresses self))) w
    = (Ok l, w') /\
    out = firstn 50 (sort_desc mv_value_eth l).
Proof.
  unfold discover_whale_movements, bind, ret.
  destruct (with_locals [] _ w) as [[l|e] w1]; [|discriminate].
  intro H. injection H as <- <-. exists l. split; reflexivity.
Qed.

End DiscoverWhaleMovements.

(** X14: every movement [discover_whale_movements] returns copies a
    transaction fetched for one of the first ten monitored addresses
    (known whales first, then exchanges) whose value is at least
    [min_value]: hash, endpoints, value, timestamp and block are the
    transaction's, each class string is ["unknown"] or the class of a
    balance fetched for that endpoint, and the labels are the table
    lookups for the endpoints. *)
Theorem discover_whale_movements_members :
  forall (W : Type) (self : Detector W) (min_value : Q) (w w' : W)
         (out : list Movement),
    discover_whale_movements self min_value w = (Ok out, w') ->
    forall m, In m out ->
      min_value <= mv_value_eth m /\
      exists tx, movement_of self min_value m tx.
Proof.
  intros W self min_value w w' out H m Hm.
  destruct (discover_whale_movements_locals self min_value _ _ _ H) as [l [Hl ->]].
  pose proof (with_locals_preserved _ _ _ _ _ _
                (discover_whale_movements_loop_invariant self min_value)
                (Forall_nil _) Hl) as Hall.
  rewrite Forall_forall in Hall.
  destruct (Hall m (In_top_sorted _ _ _ _ Hm)) as [tx Htx].
  split; [|exists tx; exact Htx].
  destruct Htx as [_ [Hv [_ [_ [_ [Hval _]]]]]]. rewrite Hval. exact Hv.
Qed.

Lemma discover_whale_movements_members_witness :
  exists (out : list Movement) (m : Movement),
    discover_whale_movements sample_detector 100 0%nat = (Ok out, 18%nat) /\
    In m out /\ 100 <= mv_value_eth m /\
    exists tx, movement_of sample_detector 100 m tx.
Proof.
  eexists _, _. split; [vm_compute; reflexivity|].
  split; [left; reflexivity|].
  apply (discover_whale_movements_members nat sample_detector 100 0%nat 18%nat
           _ ltac:(vm_compute; reflexivity)).
  left. reflexivity.
Defined.

Lemma for_each_prefix {St A : Type} (body : A -> M St unit) (l : list A) :
  forall P : list A -> St -> Prop,
    (forall pre a suf s,
        l = pre ++ a :: suf -> P pre s -> P (pre ++ [a]) (snd (body a s))) ->
    forall s, P [] s ->
      exists pre suf, l = pre ++ suf /\ P pre (snd (for_each l body s)).
Proof.
  induction l as [|a l IH]; intros P Hstep s H0.
  - exists [], []. split; [reflexivity|exact H0].
  - assert (H1 : P [a] (snd (body a s))) by (apply (Hstep [] a l s eq_refl H0)).
    cbn [for_each]. unfold bind.
    destruct (body a s) as [[[]|e] s1]; cbn [snd] in H1.
    + destruct (IH (fun pre => P (a :: pre))) with (s := s1)
        as [pre [suf [Hl Hp]]].
      * intros pre a' suf s' Hl Hp.
        apply (Hstep (a :: pre) a' suf s'); [rewrite Hl; reflexivity|exact Hp].
      * exact H1.
      * exists (a :: pre), suf. split; [rewrite Hl; reflexivity|exact Hp].
    + exists [a], l. split; [reflexivity|exact H1].
Qed.

Lemma NoDup_firstn {A : Type} (n : nat) (l : list A) :
  NoDup l -> NoDup (firstn n l).
Proof.
  intro H. rewrite <- (firstn_skipn n l) in H.
  exact (NoDup_app_remove_r _ _ H).
Qed.

Lemma dict_mem_false (d : dict) (k : string) :
  dict_mem d k = false -> ~ In k (keys d).
Proof.
  unfold dict_mem. intros H Hin.
  destruct (In_dict_get d k Hin) as [v Hv]. rewrite Hv in H. discriminate.
Qed.

Lemma discovered_dict_values (d : dict) :
  discovered_dict_ok d -> NoDup (map lower (values d)).
Proof.
  intros [Hnd Hk].
  assert (E : map lower (values d) = keys d).
  { clear Hnd. unfold values, keys. induction d as [|[k v] d IH]; [reflexivity|].
    simpl. rewrite IH by (intros k' v' H; apply Hk; right; exact H).
    rewrite <- (Hk k v (or_introl eq_refl)). reflexivity. }
  rewrite E. exact Hnd.
Qed.

Section DiscoverTopWhales.

Context {W : Type}.
Variable self : Detector W.
Variable min_balance : Q.

Lemma discover_top_whales_seed_loop_invariant :
  preserves (on_locals discovered_dict_ok) (discover_top_whales_seed_loop self).
Proof.
  unfold discover_top_whales_seed_loop.
  apply preserves_for_each. intros seed _.
  apply preserves_try; [|intros _; apply preserves_ret].
  apply preserves_bind; [apply preserves_io|].
  intros txs _.
  apply preserves_bind; [|intros _ _; apply preserves_io].
  apply preserves_for_each. intros tx _.
  destruct (Qle_bool 50 (tx_value_eth tx)); [|apply preserves_ret].
  apply preserves_for_each. intros addr _.
  apply preserves_update. intros d [Hnd Hk].
  destruct (dict_mem d (lower addr)) eqn:E; [split; assumption|].
  apply dict_mem_false in E. unfold dict_add. split.
  - unfold keys. rewrite map_app. cbn [map fst].
    apply (Permutation_NoDup (Permutation_cons_append _ _)).
    constructor; assumption.
  - intros k v Hin. apply in_app_or in Hin. destruct Hin as [Hin|[Hin|[]]].
    + apply Hk. exact Hin.
    + injection Hin as <- <-. reflexivity.
Qed.

Lemma discover_top_whales_balance_loop_run (discovered : list string)
    (w : W) :
  NoDup (map lower discovered) ->
  let s' := snd (discover_top_whales_balance_loop self min_balance discovered
                   ([], w)) in
  Forall (whale_info_of self min_balance) (fst s') /\
  NoDup (map lower (map wi_address (fst s'))).
Proof.
  intros Hnd s'.
  assert (Hnd30 : NoDup (map lower (firstn 30 discovered))).
  { rewrite <- firstn_map. apply NoDup_firstn. exact Hnd. }
  unfold s', discover_top_whales_balance_loop.
  destruct (for_each_prefix
              (fun addr : string =>
                 try_except
                   (balance <- io (get_balance self addr) ;;
                    (if Qle_bool min_balance balance then
                       update (fun whale_list : list WhaleInfo => whale_list ++ [
                         {| wi_address := addr;
                            wi_eth_balance := balance;
                            wi_whale_class := WhaleClass_value (classify_whale balance);
                            wi_label := get_whale_label self addr;
                            wi_exchange := is_exchange_address self addr;
                            wi_discovery_method := "transaction_analysis";
                            wi_chain := self_chain self |}])
                     else ret tt) ;;;
                    io (do_sleep self (2 # 10)))
                   caught_batch
                   (fun _ => ret tt))
              (firstn 30 discovered)
              (fun pre (s : list WhaleInfo * W) =>
                 Forall (whale_info_of self min_balance) (fst s) /\
                 NoDup (map lower (map wi_address (fst s))) /\
                 forall i, In i (fst s) -> In (wi_address i) pre))
    with (s := (@nil WhaleInfo, w)) as [pre [suf [_ [Hall [Hn _]]]]].
  - intros pre a suf [acc w0] Hl [Hall [Hn Hin]]. cbn [fst] in *.
    unfold try_except, bind, io, update, do_sleep, ret. cbn [fst snd].
    destruct (get_balance self a w0) as [[b|e] w1] eqn:Eb; cbn [fst snd].
    + destruct (Qle_bool min_balance b) eqn:Ev; cbn [fst snd].
      * apply Qle_bool_iff in Ev. split; [|split].
        -- apply Forall_app. split; [exact Hall|].
           constructor; [|constructor].
           unfold whale_info_of. cbn.
           split; [exists w0, w1; exact Eb|]. split; [exact Ev|]. repeat split.
        -- rewrite !map_app. cbn [map wi_address].
           apply (Permutation_NoDup (Permutation_cons_append _ _)).
           constructor; [|exact Hn].
           intro Hc. apply in_map_iff in Hc. destruct Hc as [x [Hx Hc]].
           apply in_map_iff in Hc. destruct Hc as [i [<- Hi]].
           rewrite Hl, map_app in Hnd30. cbn [map] in Hnd30.
           apply NoDup_remove_2 in Hnd30. apply Hnd30.
           apply in_or_app. left. rewrite <- Hx.
           apply in_map. apply Hin. exact Hi.
        -- intros i Hi. apply in_app_or in Hi. apply in_or_app.
           destruct Hi as [Hi|[<-|[]]]; [left; apply Hin; exact Hi|].
           right. left. reflexivity.
      * split; [exact Hall|]. split; [exact Hn|].
        intros i Hi. apply in_or_app. left. apply Hin. exact Hi.
    + destruct (caught_batch e); cbn [fst snd];
        (split; [exact Hall|]; split; [exact Hn|];
         intros i Hi; apply in_or_app; left; apply Hin; exact Hi).
  - cbn [fst]. split; [constructor|]. split; [constructor|]. intros i [].
  - split; assumption.
Qed.

Lemma discover_top_whales_locals (w w' : W) (out : list WhaleInfo) :
  discover_top_whales self min_balance w = (Ok out, w') ->
  exists d w1 l,
    with_locals [] (discover_top_whales_seed_loop self) w = (Ok d, w1) /\
    with_locals [] (discover_top_whales_balance_loop self min_balance (values d)) w1
    = (Ok l, w') /\
    out = firstn 20 (sort_desc wi_eth_balance l).
Proof.
  unfold discover_top_whales, bind, ret.
  destruct (with_locals [] (discover_top_whales_seed_loop self) w)
    as [[d|e] w1] eqn:Ed; [|discriminate].
  destruct (with_locals [] _ w1) as [[l|e] w2] eqn:El; [|discriminate].
  intro H. injection H as <- <-. exists d, w1, l.
  split; [reflexivity|]. split; [exact El|reflexivity].
Qed.

End DiscoverTopWhales.

(** X15: every record [discover_top_whales] returns is for an address
    whose fetched balance is at least [min_balance], with the class string
    of that balance, the table lookups as label and exchange, and the tag
    ["transaction_analysis"]; and no address is reported twice, not even
    in a different letter case. *)
Theorem discover_top_whales_members :
  forall (W : Type) (self : Detector W) (min_balance : Q) (w w' : W)
         (out : list WhaleInfo),
    discover_top_whales self min_balance w = (Ok out, w') ->
    (forall i, In i out -> whale_info_of self min_balance i) /\
    NoDup (map lower (map wi_address out)).
Proof.
  intros W self min_balance w w' out H.
  destruct (discover_top_whales_locals self min_balance _ _ _ H)
    as [d [w1 [l [Hd [Hl ->]]]]].
  assert (H0 : discovered_dict_ok []) by (split; [constructor|intros k v []]).
  pose proof (with_locals_preserved _ _ _ _ _ _
                (discover_top_whales_seed_loop_invariant self) H0 Hd) as Hdict.
  pose proof (discover_top_whales_balance_loop_run self min_balance (values d) w1
                (discovered_dict_values d Hdict)) as [Hall Hn].
  unfold with_locals in Hl.
  destruct (discover_top_whales_balance_loop self min_balance (values d) ([], w1))
    as [[[]|e] [l' w2]]; [|discriminate].
  injection Hl as <- _. cbn [fst snd] in Hall, Hn.
  split.
  - intros i Hi. rewrite Forall_forall in Hall. apply Hall.
    exact (In_top_sorted _ _ _ _ Hi).
  - rewrite <- !firstn_map. apply NoDup_firstn.
    apply (Permutation_NoDup
             (l := map lower (map wi_address l')));
      [|exact Hn].
    apply Permutation_map, Permutation_map, Permutation_sym,
      sort_desc_Permutation.
Qed.

Lemma discover_top_whales_members_witness :
  exists out : list WhaleInfo,
    discover_top_whales sample_detector 1000 0%nat = (Ok out, 8%nat) /\
    map wi_address out = ["0xalice"; "0xbob"]%string /\
    (forall i, In i out -> whale_info_of sample_detector 1000 i) /\
    NoDup (map lower (map wi_address out)).
Proof.
  eexists. split; [vm_compute; reflexivity|]. split; [reflexivity|].
  apply (discover_top_whales_members nat sample_detector 1000 0%nat 8%nat).
  vm_compute. reflexivity.
Defined.

Section TrackExchangeWhalesAnnotations.

Context {W : Type}.
Variable self : Detector W.
Variable min_amount : Q.

Lemma track_exchange_whales_annotated_invariant :
  preserves
    (on_locals (Forall (fun m => exchange_movement_annotated self m /\
                                 min_amount <= em_value_eth m)))
    (track_exchange_whales_loop self min_amount).
Proof.
  unfold track_exchange_whales_loop.
  apply preserves_for_each. intros e He.
  apply preserves_try; [|intros _; apply preserves_ret].
  apply preserves_bind.
  { destruct (dict_get (exchange_addresses self) e);
      [apply preserves_ret|apply preserves_raise]. }
  intros exchange_name Hname.
  assert (Hn : dict_get (exchange_addresses self) e = Some exchange_name).
  { destruct Hname as [s [s' Hs]].
    destruct (dict_get (exchange_addresses self) e); [|discriminate Hs].
    unfold ret in Hs. injection Hs as -> _. reflexivity. }
  apply preserves_bind; [apply preserves_io|].
  intros txs _.
  apply preserves_bind; [|intros _ _; apply preserves_io].
  apply preserves_for_each. intros tx _.
  destruct (Qle_bool min_amount (tx_value_eth tx)) eqn:Ev;
    [|apply preserves_ret].
  apply Qle_bool_iff in Ev.
  apply preserves_bind; [apply preserves_io|].
  intros wc Hwc. apply returns_io in Hwc.
  apply preserves_update. intros l Hl.
  apply Forall_app. split; [exact Hl|].
  constructor; [|constructor].
  split; [|exact Ev].
  unfold exchange_movement_annotated. cbn.
  split; [exact Hn|]. split.
  - unfold movement_side.
    destruct (String.eqb (lower (tx_to tx)) (lower e)); auto.
  - split; [apply returns_whale_class_cached; exact Hwc|]. split; reflexivity.
Qed.

End TrackExchangeWhalesAnnotations.

(** X16: every movement [track_exchange_whales] returns has a value of at
    least [min_amount], is a "deposit" or a "withdrawal", names the
    exchange by the table's label of its exchange address, carries the
    counterparty's table label, and has as class string ["unknown"] or the
    class of a balance fetched for the counterparty. *)
Theorem track_exchange_whales_annotations :
  forall (W : Type) (self : Detector W) (min_amount : Q) (w w' : W)
         (out : list ExchangeMovement),
    track_exchange_whales self min_amount w = (Ok out, w') ->
    forall m, In m out ->
      exchange_movement_annotated self m /\ min_amount <= em_value_eth m.
Proof.
  intros W self min_amount w w' out H m Hm.
  destruct (track_exchange_whales_result self _ _ _ _ H) as [l [Hl ->]].
  pose proof (with_locals_preserved _ _ _ _ _ _
                (track_exchange_whales_annotated_invariant self min_amount)
                (Forall_nil _) Hl) as Hall.
  rewrite Forall_forall in Hall. apply Hall.
  exact (In_top_sorted _ _ _ _ Hm).
Qed.

Lemma track_exchange_whales_annotations_witness :
  exists (out : list ExchangeMovement) (m : ExchangeMovement),
    track_exchange_whales sample_detector 500 0%nat = (Ok out, 7%nat) /\
    In m out /\
    exchange_movement_annotated sample_detector m /\ 500 <= em_value_eth m.
Proof.
  eexists _, _. split; [vm_compute; reflexivity|].
  split; [left; reflexivity|].
  apply (track_exchange_whales_annotations nat sample_detector 500 0%nat 7%nat
           _ ltac:(vm_compute; reflexivity)).
  left. reflexivity.
Defined.

(** ** The exchange-flow summary *)




